(** * winmem_decompress: the plain LZ77 decoder and the page scanner

    A shallow embedding of [winmem_decompress.py] (LZ77DecompressBuffer,
  ScanBuffer and ScanFile) and the proofs of the properties stated about
  them.

  Python integers are unbounded, so every counter and position is a [Z].
  A [bytes] object is a [list byte]; indexing, slicing and
  [struct.unpack] follow Python (module [Py]); [io.BytesIO] is modelled
  with its own stream position (module [BytesIO]). *)

From Stdlib Require Import ZArith List Lia Bool Permutation.
From Stdlib Require Import Strings.Byte.
From Equations Require Import Equations.
Import ListNotations.
Local Open Scope Z_scope.

(** ** Python values and built-ins used by the program *)

(** The exceptions the operations of the program can raise. *)
Inductive exn : Type :=
| IndexError
| ValueError
| StructError.

Module Py.

(** [len(l)] *)
Definition len {A : Type} (l : list A) : Z := Z.of_nat (length l).

(** An element of a [bytes] object is an [int] in [range(256)]. *)
Definition int_of_byte (b : byte) : Z := Z.of_N (Byte.to_N b).

(** [l[i]]: a negative index counts from the end; [None] stands for
    the IndexError raised outside [-len(l) .. len(l) - 1]. *)
Definition getitem {A : Type} (l : list A) (i : Z) : option A :=
  let j := if i <? 0 then i + len l else i in
  if (0 <=? j) && (j <? len l) then nth_error l (Z.to_nat j) else None.

(** How a slice bound is brought into [0 .. n] (step 1). *)
Definition clamp (n i : Z) : Z :=
  if i <? 0 then Z.max (i + n) 0 else Z.min i n.

(** [l[i:j]]: never raises, returns what is there. *)
Definition slice {A : Type} (l : list A) (i j : Z) : list A :=
  let a := clamp (len l) i in
  let b := clamp (len l) j in
  firstn (Z.to_nat (b - a)) (skipn (Z.to_nat a) l).

(** The little-endian unsigned value of a byte string. *)
Fixpoint le_value (bs : list byte) : Z :=
  match bs with
  | [] => 0
  | b :: rest => int_of_byte b + 256 * le_value rest
  end.

(** [struct.unpack('<L', bs)] (width 4) and [struct.unpack('<H', bs)]
    (width 2): struct.error unless [bs] has exactly [width] bytes. *)
Definition unpack (width : Z) (bs : list byte) : exn + Z :=
  if len bs =? width then inr (le_value bs) else inl StructError.

(** [a << n]: ValueError on a negative shift count. *)
Definition lshift (a n : Z) : exn + Z :=
  if n <? 0 then inl ValueError else inr (Z.shiftl a n).

(** [l.startswith(p)] *)
Fixpoint startswith (l p : list byte) : bool :=
  match p, l with
  | [], _ => true
  | _ :: _, [] => false
  | y :: p', x :: l' => Byte.eqb x y && startswith l' p'
  end.

End Py.

(** [io.BytesIO]: the bytes written so far and the stream position. *)
Module BytesIO.

Record t : Type := mk { value : list byte; position : Z }.

(** [io.BytesIO()] *)
Definition empty : t := mk [] 0.

(** [o.seek(n)]: ValueError on a negative position. *)
Definition seek (o : t) (n : Z) : exn + t :=
  if n <? 0 then inl ValueError else inr (mk (value o) n).

(** [o.read(n)] for [n >= 0]: up to [n] bytes from the position on,
    nothing at or past the end; the position moves past what was read. *)
Definition read (o : t) (n : Z) : list byte * t :=
  let data := Py.slice (value o) (position o) (position o + n) in
  (data, mk (value o) (position o + Py.len data)).

(** [o.write(data)]: a position past the end is first reached with
    zero bytes; the data overwrites what is there and extends the
    buffer. *)
Definition write (o : t) (data : list byte) : t :=
  let p := position o in
  let v := if Py.len (value o) <? p
           then value o ++ repeat x00 (Z.to_nat (p - Py.len (value o)))
           else value o in
  mk (firstn (Z.to_nat p) v ++ data ++ skipn (Z.to_nat (p + Py.len data)) v)
     (p + Py.len data).

(** [o.getvalue()] *)
Definition getvalue (o : t) : list byte := value o.

End BytesIO.

(** ** The decoder: LZ77DecompressBuffer *)

(** The local variables of LZ77DecompressBuffer that live across loop
  iterations. *)
Record state : Type := mkState {
  BufferedFlags : Z;
  BufferedFlagCount : Z;
  InputPosition : Z;
  OutputPosition : Z;
  LastLengthHalfByte : Z;
  OutputObject : BytesIO.t
}.

Definition set_BufferedFlags (v : Z) (s : state) : state :=
  mkState v (BufferedFlagCount s) (InputPosition s) (OutputPosition s)
          (LastLengthHalfByte s) (OutputObject s).
Definition set_BufferedFlagCount (v : Z) (s : state) : state :=
  mkState (BufferedFlags s) v (InputPosition s) (OutputPosition s)
          (LastLengthHalfByte s) (OutputObject s).
Definition set_InputPosition (v : Z) (s : state) : state :=
  mkState (BufferedFlags s) (BufferedFlagCount s) v (OutputPosition s)
          (LastLengthHalfByte s) (OutputObject s).
Definition set_OutputPosition (v : Z) (s : state) : state :=
  mkState (BufferedFlags s) (BufferedFlagCount s) (InputPosition s) v
          (LastLengthHalfByte s) (OutputObject s).
Definition set_LastLengthHalfByte (v : Z) (s : state) : state :=
  mkState (BufferedFlags s) (BufferedFlagCount s) (InputPosition s)
          (OutputPosition s) v (OutputObject s).
Definition set_OutputObject (v : BytesIO.t) (s : state) : state :=
  mkState (BufferedFlags s) (BufferedFlagCount s) (InputPosition s)
          (OutputPosition s) (LastLengthHalfByte s) v.

(** How a piece of the loop body ends: it falls through with a value,
  leaves the loop with [break], leaves the function with [return], or
  raises. *)
Inductive ctl (A : Type) : Type :=
| Normal (a : A)
| Break (s : state)
| Return (OutputBuffer : list byte)
| Raise (e : exn).
Arguments Normal {A} a.
Arguments Break {A} s.
Arguments Return {A} OutputBuffer.
Arguments Raise {A} e.

Definition bind {A B : Type} (c : ctl A) (k : A -> ctl B) : ctl B :=
  match c with
  | Normal a => k a
  | Break s => Break s
  | Return v => Return v
  | Raise e => Raise e
  end.

(** An operation that can raise, used where the program does not catch. *)
Definition lift {A : Type} (r : exn + A) : ctl A :=
  match r with
  | inl e => Raise e
  | inr a => Normal a
  end.

Declare Scope ctl_scope.
Delimit Scope ctl_scope with ctl.
Notation "x <- c ;; k" := (bind c (fun x => k))
  (at level 61, c at next level, right associativity) : ctl_scope.
Notation "' p <- c ;; k" := (bind c (fun x => match x with p => k end))
  (at level 61, p pattern, c at next level, right associativity) : ctl_scope.
Local Open Scope ctl_scope.

(** The state on entry: lines 26 to 32. *)
Definition initial_state : state :=
  mkState 0 0 0 0 0 BytesIO.empty.

Definition is_valid_write_request (offset : Z) : bool :=
  offset <? 2 * 1024 * 1024 * 1024.

Section Decompressor.

Variable Buffer : list byte.

(** Lines 35 to 45: read the next flag word when none is buffered.
    (On the short read the program leaves the bytes in BufferedFlags
    and breaks; nothing reads the variable after that.) *)
Definition refill (s : state) : ctl state :=
  if BufferedFlagCount s =? 0 then
    let chunk := Py.slice Buffer (InputPosition s) (InputPosition s + 4) in
    if negb (Py.len chunk =? 4) then Break s
    else
      w <- lift (Py.unpack 4 chunk) ;;
      Normal (set_BufferedFlagCount 32
               (set_InputPosition (InputPosition s + 4)
                 (set_BufferedFlags w s)))
  else Normal s.

(** Lines 49 to 68: a literal byte. *)
Definition literal (s : state) : ctl state :=
  match Py.getitem Buffer (InputPosition s) with
  | None => Break s
  | Some OneByte =>
      if is_valid_write_request (OutputPosition s) then
        o <- lift (BytesIO.seek (OutputObject s) (OutputPosition s)) ;;
        Normal (set_OutputPosition (OutputPosition s + 1)
                 (set_InputPosition (InputPosition s + 1)
                   (set_OutputObject (BytesIO.write o [OneByte]) s)))
      else Break s
  end.

(** Lines 77 to 84: the 16-bit match word. *)
Definition read_match_word (s : state) : ctl (Z * state) :=
  let chunk := Py.slice Buffer (InputPosition s) (InputPosition s + 2) in
  if negb (Py.len chunk =? 2) then Break s
  else
    MatchBytes <- lift (Py.unpack 2 chunk) ;;
    Normal (MatchBytes, set_InputPosition (InputPosition s + 2) s).

(** Lines 88 to 112: the 4-bit length extension, from a fresh byte (low
    half) or from the byte remembered in LastLengthHalfByte (high half). *)
Definition length_nibble (s : state) : ctl (Z * state) :=
  if LastLengthHalfByte s =? 0 then
    match Py.getitem Buffer (InputPosition s) with
    | None => Break s
    | Some b =>
        Normal (Py.int_of_byte b mod 16,
                set_InputPosition (InputPosition s + 1)
                  (set_LastLengthHalfByte (InputPosition s) s))
    end
  else
    match Py.getitem Buffer (LastLengthHalfByte s) with
    | None => Break s
    | Some b =>
        Normal (Py.int_of_byte b / 16, set_LastLengthHalfByte 0 s)
    end.

(** Lines 114 to 139: the escape byte and the 16-bit length behind a
    length extension of 15. *)
Definition length_escape (MatchLength : Z) (s : state) : ctl (Z * state) :=
  if MatchLength =? 15 then
    match Py.getitem Buffer (InputPosition s) with
    | None => Break s
    | Some b =>
        let MatchLength := Py.int_of_byte b in
        let s := set_InputPosition (InputPosition s + 1) s in
        if MatchLength =? 255 then
          let chunk := Py.slice Buffer (InputPosition s) (InputPosition s + 2) in
          if negb (Py.len chunk =? 2) then Break s
          else
            MatchLength <- lift (Py.unpack 2 chunk) ;;
            let s := set_InputPosition (InputPosition s + 2) s in
            if MatchLength <? 15 + 7 then Break s
            else Normal (MatchLength - (15 + 7) + 15, s)
        else Normal (MatchLength + 15, s)
    end
  else Normal (MatchLength, s).

(** Lines 85 to 143, the offset apart: the length of a match. *)
Definition match_length (MatchBytes : Z) (s : state) : ctl (Z * state) :=
  let MatchLength := MatchBytes mod 8 in
  if MatchLength =? 7 then
    '(MatchLength, s) <- length_nibble s ;;
    '(MatchLength, s) <- length_escape MatchLength s ;;
    Normal (MatchLength + 7 + 3, s)
  else Normal (MatchLength + 3, s).

(** Lines 147 to 168: one pass through the body of the [for] loop, the
    copy of one byte.  The boolean is bogus_data, set where the pass
    ends in [break]. *)
Definition copy_byte (MatchOffset : Z) (s : state) : ctl (bool * state) :=
  if OutputPosition s - MatchOffset <? 0 then Normal (true, s)
  else
    o <- lift (BytesIO.seek (OutputObject s)
                            (OutputPosition s - MatchOffset)) ;;
    let '(OneByte, o) := BytesIO.read o 1 in
    if negb (Py.len OneByte =? 1) then
      Normal (true, set_OutputObject o s)
    else if is_valid_write_request (OutputPosition s) then
      o <- lift (BytesIO.seek o (OutputPosition s)) ;;
      Normal (false, set_OutputPosition (OutputPosition s + 1)
                       (set_OutputObject (BytesIO.write o OneByte) s))
    else Normal (true, set_OutputObject o s).

(** Lines 145 to 168: [for i in range(0, MatchLength)]; [n] is the
    number of values the range still has to produce. *)
Fixpoint copy_loop (n : nat) (MatchOffset : Z) (s : state)
  : ctl (bool * state) :=
  match n with
  | O => Normal (false, s)
  | S n' =>
      '(bogus_data, s) <- copy_byte MatchOffset s ;;
      if bogus_data : bool then Normal (true, s)
      else copy_loop n' MatchOffset s
  end.

(** Lines 85 to 171: a match whose word has been read. *)
Definition match_body (MatchBytes : Z) (s : state) : ctl state :=
  let MatchOffset := MatchBytes / 8 + 1 in
  '(MatchLength, s) <- match_length MatchBytes s ;;
  '(bogus_data, s) <- copy_loop (Z.to_nat MatchLength) MatchOffset s ;;
  if bogus_data : bool then Break s else Normal s.

(** Lines 70 to 171: the branch of a set flag bit. *)
Definition process_match (s : state) : ctl state :=
  if InputPosition s =? Py.len Buffer then
    Return (BytesIO.getvalue (OutputObject s))
  else
    '(MatchBytes, s) <- read_match_word s ;;
    match_body MatchBytes s.

(** Lines 47 and 48: take the next flag bit, most significant first. *)
Definition take_flag (s : state) : ctl (bool * state) :=
  let s := set_BufferedFlagCount (BufferedFlagCount s - 1) s in
  mask <- lift (Py.lshift 1 (BufferedFlagCount s)) ;;
  Normal (Z.land (BufferedFlags s) mask =? 0, s).

(** Lines 35 to 171: one pass through the body of [while True]. *)
Definition iteration (s : state) : ctl state :=
  s <- refill s ;;
  '(is_literal, s) <- take_flag s ;;
  if is_literal : bool then literal s else process_match s.

(** How the loop was left. *)
Inductive stop : Type :=
| Broke (s : state)
| Returned (OutputBuffer : list byte)
| Raised (e : exn).

(** [while True]: [None] when [fuel] passes through the body were not
    enough to leave the loop. *)
Fixpoint while_True (fuel : nat) (s : state) : option stop :=
  match fuel with
  | O => None
  | S fuel' =>
      match iteration s with
      | Normal s' => while_True fuel' s'
      | Break s' => Some (Broke s')
      | Return v => Some (Returned v)
      | Raise e => Some (Raised e)
      end
  end.

(** Lines 173 to 177 after a [break]; the value of the [return] of
    line 75 otherwise. *)
Definition finish (r : stop) : exn + list byte :=
  match r with
  | Broke s => inr (BytesIO.getvalue (OutputObject s))
  | Returned v => inr v
  | Raised e => inl e
  end.

(** The whole function.  Every pass that does not leave the loop reads
    at least one byte of Buffer, so [len(Buffer) + 1] passes are enough
    (see [while_True_terminates]). *)
Definition LZ77DecompressBuffer : option (exn + list byte) :=
  option_map finish (while_True (S (length Buffer)) initial_state).

End Decompressor.

(** ** The scanner: ScanBuffer *)

Definition PAGE_SIZE : Z := 4096.
Definition COMPRESSED_DATA_CHUNK_SIZE : Z := 16.
Definition DECOMPRESSED_DATA_SIZE_MIN : Z := 1024.

(** [b'\x00' * 12] *)
Definition null_bytes_12 : list byte := repeat x00 12.

(** Lines 188 to 195: the [while pos < len(Buffer)] loop that collects
    the windows to decompress.  [pos] grows by 16 in every pass, so
    [len(Buffer) - pos] is a measure. *)
Equations? scan_loop (Buffer : list byte) (pos : Z)
  (compressed_data_to_process : list (list byte)) : list (list byte)
  by wf (Z.to_nat (Py.len Buffer - pos)) lt :=
  scan_loop Buffer pos acc with Z_lt_dec pos (Py.len Buffer) := {
    | left _ =>
        let compressed_data := Py.slice Buffer pos (pos + PAGE_SIZE) in
        scan_loop Buffer (pos + COMPRESSED_DATA_CHUNK_SIZE)
          (if negb (Py.startswith compressed_data null_bytes_12)
           then acc ++ [compressed_data] else acc)
    | right _ => acc }.
Proof. unfold COMPRESSED_DATA_CHUNK_SIZE. lia. Qed.

(** Lines 186 to 195: the list handed to the worker pool. *)
Definition compressed_data_to_process (Buffer : list byte) : list (list byte) :=
  scan_loop Buffer 0 [].

(** Lines 198 to 207: what the body of the [for] loop yields for one
    decompressed chunk; [None] when nothing is yielded. *)
Definition yield_page (decompressed_data : list byte) : option (list byte) :=
  if Py.len decompressed_data >=? DECOMPRESSED_DATA_SIZE_MIN then
    if Py.len decompressed_data >? PAGE_SIZE then
      Some (Py.slice decompressed_data 0 PAGE_SIZE)
    else if Py.len decompressed_data <? PAGE_SIZE then
      let padding_length := PAGE_SIZE - Py.len decompressed_data in
      Some (decompressed_data ++ repeat x00 (Z.to_nat padding_length))
    else Some decompressed_data
  else None.

(** Lines 197 to 207: the pages the generator yields for the chunks the
    pool delivers, in the order of their delivery (imap_unordered fixes
    none). *)
Definition yielded_pages (results : list (list byte)) : list (list byte) :=
  flat_map (fun decompressed_data =>
              match yield_page decompressed_data with
              | Some page => [page]
              | None => []
              end) results.

(** ** What the properties speak about *)

Section Runs.

Variable Buffer : list byte.

(** The states in which a run on Buffer is at the head of the loop. *)
Inductive reachable : state -> Prop :=
| reachable_initial : reachable initial_state
| reachable_next (s s' : state) :
    reachable s -> iteration Buffer s = Normal s' -> reachable s'.

(** What holds of the variables at every point of the loop body. *)
Record consistent (s : state) : Prop := {
  input_in_range : 0 <= InputPosition s <= Py.len Buffer;
  output_at_end :
    Py.len (BytesIO.value (OutputObject s)) = OutputPosition s;
  cache_in_range :
    LastLengthHalfByte s = 0 \/
    6 <= LastLengthHalfByte s < InputPosition s
}.

(** ... at the head of the loop ... *)
Record at_head (s : state) : Prop := {
  head_consistent : consistent s;
  head_count : 0 <= BufferedFlagCount s <= 32;
  head_flag_word : BufferedFlagCount s <> 0 -> 4 <= InputPosition s
}.

(** ... and behind the flag bit. *)
Record in_body (s : state) : Prop := {
  body_consistent : consistent s;
  body_count : 0 <= BufferedFlagCount s <= 31;
  body_flag_word : 4 <= InputPosition s
}.

(** A piece of the body that leaves the output and the flags alone ... *)
Definition keeps_output (s s' : state) : Prop :=
  OutputObject s' = OutputObject s /\
  OutputPosition s' = OutputPosition s /\
  BufferedFlags s' = BufferedFlags s /\
  BufferedFlagCount s' = BufferedFlagCount s.

(** ... and one that leaves the input side and the flags alone. *)
Definition keeps_input (s s' : state) : Prop :=
  InputPosition s' = InputPosition s /\
  LastLengthHalfByte s' = LastLengthHalfByte s /\
  BufferedFlags s' = BufferedFlags s /\
  BufferedFlagCount s' = BufferedFlagCount s.

(** How the decoding of a length that starts in [e] can end: with a
    length between [lo] and [hi], or in [break]; the output is as it
    was. *)
Definition length_outcome (e : state) (lo hi : Z) (r : ctl (Z * state))
  : Prop :=
  match r with
  | Normal (n, s') =>
      lo <= n <= hi /\ consistent s' /\
      InputPosition e <= InputPosition s' /\ keeps_output e s'
  | Break s' =>
      consistent s' /\ InputPosition e <= InputPosition s' /\
      keeps_output e s'
  | Return _ | Raise _ => False
  end.

(** How the copy of at most [n] bytes that starts in [s] can end: [ext]
    is what it appended. *)
Definition copy_outcome (s : state) (n : nat) (r : ctl (bool * state))
  : Prop :=
  match r with
  | Normal (bogus_data, s') =>
      consistent s' /\ keeps_input s s' /\
      exists ext,
        BytesIO.value (OutputObject s') =
        BytesIO.value (OutputObject s) ++ ext /\
        (length ext <= n)%nat /\
        (bogus_data = false -> length ext = n)
  | Break _ | Return _ | Raise _ => False
  end.

(** How a pass that starts in [s] can end: never with an exception. *)
Definition pass_outcome (s : state) (r : ctl state) : Prop :=
  match r with
  | Normal s' =>
      at_head s' /\ InputPosition s < InputPosition s' /\
      exists ext,
        BytesIO.value (OutputObject s') =
        BytesIO.value (OutputObject s) ++ ext
  | Break s' =>
      exists ext,
        BytesIO.value (OutputObject s') =
        BytesIO.value (OutputObject s) ++ ext
  | Return OutputBuffer =>
      OutputBuffer = BytesIO.value (OutputObject s)
  | Raise _ => False
  end.

(** The pass that starts in [s] takes the branch of a match and reads
    the match word [MatchBytes]; [e] is the state behind the word. *)
Definition enters_match (s : state) (MatchBytes : Z) (e : state) : Prop :=
  exists s1 s2,
    refill Buffer s = Normal s1 /\
    take_flag s1 = Normal (false, s2) /\
    InputPosition s2 <> Py.len Buffer /\
    read_match_word Buffer s2 = Normal (MatchBytes, e).

(** The pass that starts in [s] is a match with length field 7. *)
Definition field7_pass (s : state) : Prop :=
  exists MatchBytes e, enters_match s MatchBytes e /\ MatchBytes mod 8 = 7.

(** From [s] to [s'] in passes none of which is such a match. *)
Inductive quiet_run : state -> state -> Prop :=
| quiet_done (s : state) : quiet_run s s
| quiet_pass (s s' s'' : state) :
    ~ field7_pass s -> iteration Buffer s = Normal s' ->
    quiet_run s' s'' -> quiet_run s s''.

(** Two matches of which the first, entered in [e1], reads the length
    extension byte and keeps its position, and the second, entered in
    [e2], takes the high half of that byte and reads nothing. *)
Definition share_extension_byte (e1 e2 : state) : Prop :=
  exists B,
    Py.getitem Buffer (InputPosition e1) = Some B /\
    length_nibble Buffer e1 =
      Normal (Py.int_of_byte B mod 16,
              set_InputPosition (InputPosition e1 + 1)
                (set_LastLengthHalfByte (InputPosition e1) e1)) /\
    length_nibble Buffer e2 =
      Normal (Py.int_of_byte B / 16, set_LastLengthHalfByte 0 e2).

(** The sharing of the extension byte, said of any two matches with
    length field 7 that have no other such match between them. *)
Definition every_field7_pair_shares : Prop :=
  forall s1 W1 e1 s1' s2 W2 e2,
    reachable s1 ->
    enters_match s1 W1 e1 -> W1 mod 8 = 7 ->
    iteration Buffer s1 = Normal s1' ->
    quiet_run s1' s2 ->
    enters_match s2 W2 e2 -> W2 mod 8 = 7 ->
    share_extension_byte e1 e2.

End Runs.

(** The windows of the scan, from the words of the specification: one
    at each offset [16 * k] below [len(Buffer)], of the next
    [min(4096, bytes remaining)] bytes. *)
Definition window_count (Buffer : list byte) : nat :=
  Z.to_nat ((Py.len Buffer + 15) / 16).

Definition window_at (Buffer : list byte) (k : nat) : list byte :=
  firstn (Z.to_nat (Z.min 4096 (Py.len Buffer - 16 * Z.of_nat k)))
         (skipn (16 * k) Buffer).

Definition candidate_windows (Buffer : list byte) : list (list byte) :=
  map (window_at Buffer) (seq 0 (window_count Buffer)).

(** ** Sample chunks *)

(** Flag word 0x40000000 (a literal, then a match), the literal 'A',
    the match word 7 (offset 1, length field 7), the extension byte
    0x0F, the escape byte 0xFF and the 16-bit length 16. *)
Definition escape_chunk : list byte :=
  [x00; x00; x00; x40; x41; x07; x00; x0f; xff; x10; x00].

(** The run on [escape_chunk] at the head of its second pass, and behind
    the match word of that pass. *)
Definition escape_chunk_head : state :=
  mkState 1073741824 31 5 1 0 (BytesIO.mk [x41] 1).
Definition escape_chunk_entry : state :=
  mkState 1073741824 30 7 1 0 (BytesIO.mk [x41] 1).

(** Flag word 0x70000000 (a literal, then three matches), the literal
    'A', and three matches with match word 7; the first reads the
    extension byte 0x21, the second reads none, the third reads 0x03. *)
Definition three_matches : list byte :=
  [x00; x00; x00; x70; x41; x07; x00; x21; x07; x00; x07; x00; x03].

(** The run on [three_matches] at the head of the pass of each match,
    and behind the match word of each. *)
Definition first_match_head : state :=
  mkState 1879048192 31 5 1 0 (BytesIO.mk [x41] 1).
Definition first_match_entry : state :=
  mkState 1879048192 30 7 1 0 (BytesIO.mk [x41] 1).
Definition second_match_head : state :=
  mkState 1879048192 30 8 12 7 (BytesIO.mk (repeat x41 12) 12).
Definition second_match_entry : state :=
  mkState 1879048192 29 10 12 7 (BytesIO.mk (repeat x41 12) 12).
Definition third_match_head : state :=
  mkState 1879048192 29 10 24 0 (BytesIO.mk (repeat x41 24) 24).
Definition third_match_entry : state :=
  mkState 1879048192 28 12 24 0 (BytesIO.mk (repeat x41 24) 24).

(** Flag word 0x40000000 (a literal, then a match), the literal 'A' and
    the match word 8: offset 2, with one byte of output. *)
Definition far_match : list byte :=
  [x00; x00; x00; x40; x41; x08; x00].

(** The run on [far_match] at the head of its second pass, and behind
    the match word of that pass. *)
Definition far_match_head : state :=
  mkState 1073741824 31 5 1 0 (BytesIO.mk [x41] 1).
Definition far_match_entry : state :=
  mkState 1073741824 30 7 1 0 (BytesIO.mk [x41] 1).

(** A flag word of 32 literal flags and the 32 literals 0x41 to 0x60. *)
Definition all_literals : list byte :=
  [x00; x00; x00; x00;
   x41; x42; x43; x44; x45; x46; x47; x48;
   x49; x4a; x4b; x4c; x4d; x4e; x4f; x50;
   x51; x52; x53; x54; x55; x56; x57; x58;
   x59; x5a; x5b; x5c; x5d; x5e; x5f; x60].

(** ** Bounds on the output of a run *)

(** The output a run has written is below the ceiling of
    is_valid_write_request, and no pass writes more than 13108 bytes for
    each byte of Buffer it reads: the longest match, of 65538 bytes,
    takes at least five bytes of input. *)
Definition within_bounds (s : state) : Prop :=
  OutputPosition s <= 2 * 1024 * 1024 * 1024 /\
  OutputPosition s <= 13108 * InputPosition s.

(** ** Streams of literals *)

(** A flag word of 32 literal flags and the literals [g] behind it. *)
Definition literal_group (g : list byte) : list byte :=
  [x00; x00; x00; x00] ++ g.

(** Groups of 32 literals each and a last group of at most 32, every
    one behind its flag word: how a chunk stores bytes it does not
    compress. *)
Definition literal_stream (groups : list (list byte)) (last : list byte)
  : list byte :=
  flat_map literal_group groups ++ literal_group last.

(** The variables of a run that has read only flag words of 0 and
    literals: [count] flags are left, [pos] bytes of Buffer are read and
    [out] is written. *)
Definition literal_state (count pos : Z) (out : list byte) : state :=
  mkState 0 count pos (Py.len out) 0 (BytesIO.mk out (Py.len out)).

(** ** The generator of ScanBuffer *)

(** Lines 197 to 207 with the decoder in the pool: [delivered] are the
    windows in the order in which the pool hands back their results
    (imap_unordered fixes none; any order of the windows submitted is
    allowed for here).  The result is the list of the pages yielded and
    the exception of a worker, raised again in the generator, that ended
    it; [None] stands for a decoder that did not come back. *)
Fixpoint ScanBuffer_yields (delivered : list (list byte))
  : option (list (list byte) * option exn) :=
  match delivered with
  | [] => Some ([], None)
  | compressed_data :: rest =>
      match LZ77DecompressBuffer compressed_data with
      | None => None
      | Some (inl e) => Some ([], Some e)
      | Some (inr decompressed_data) =>
          match ScanBuffer_yields rest with
          | None => None
          | Some (pages, e) =>
              Some (match yield_page decompressed_data with
                    | Some page => page :: pages
                    | None => pages
                    end, e)
          end
      end
  end.

(** The pages one window contributes to the scan. *)
Definition pages_of_window (compressed_data : list byte)
  : list (list byte) :=
  match LZ77DecompressBuffer compressed_data with
  | Some (inr decompressed_data) => yielded_pages [decompressed_data]
  | Some (inl _) | None => []
  end.

(** ** The file scanner: ScanFile *)

Definition read_chunk_size : Z := 32 * PAGE_SIZE.

(** [file_obj.seek(file_pos)] followed by [file_obj.read(size)], for a
    file opened with mode 'rb' that holds [file]: the bytes from
    [file_pos] on, [size] of them or as many as there are. *)
Definition seek_and_read (file : list byte) (file_pos size : Z)
  : list byte :=
  Py.slice file file_pos (file_pos + size).

(** Lines 218 to 230: the loop of ScanFile; [file_size], the position
    of the end of the file, is its length.  [bufs] collects the buffers
    handed to ScanBuffer, in order.  [file_pos] grows by
    [read_chunk_size] in every pass that does not leave the loop. *)
Equations? ScanFile_loop (file : list byte) (file_pos : Z)
  (bufs : list (list byte)) : list (list byte)
  by wf (Z.to_nat (Py.len file - file_pos)) lt :=
  ScanFile_loop file file_pos bufs with Z_lt_dec file_pos (Py.len file) := {
    | left _ =>
        let buf := seek_and_read file file_pos read_chunk_size in
        if negb (Py.len buf =? read_chunk_size) then bufs ++ [buf]
        else ScanFile_loop file (file_pos + read_chunk_size) (bufs ++ [buf])
    | right _ => bufs }.
Proof. unfold read_chunk_size, PAGE_SIZE. lia. Qed.

(** The buffers ScanFile reads from a file and scans. *)
Definition ScanFile_buffers (file : list byte) : list (list byte) :=
  ScanFile_loop file 0 [].



(** ** Tactics *)

(** The fields of a state that has been written with the setters. *)
Ltac fields :=
  cbn [InputPosition OutputPosition OutputObject LastLengthHalfByte
       BufferedFlags BufferedFlagCount
       set_InputPosition set_OutputPosition set_OutputObject
       set_LastLengthHalfByte set_BufferedFlags set_BufferedFlagCount
       BytesIO.value BytesIO.position] in *.

(** * Proofs *)

(** ** Python sequences *)

Lemma len_nonneg {A : Type} (l : list A) : 0 <= Py.len l.
Proof. unfold Py.len. lia. Qed.

Lemma len_app {A : Type} (l1 l2 : list A) :
  Py.len (l1 ++ l2) = Py.len l1 + Py.len l2.
Proof. unfold Py.len. rewrite length_app. lia. Qed.

Lemma len_repeat {A : Type} (x : A) (n : nat) :
  Py.len (repeat x n) = Z.of_nat n.
Proof. unfold Py.len. rewrite repeat_length. reflexivity. Qed.

Lemma int_of_byte_range (b : byte) : 0 <= Py.int_of_byte b <= 255.
Proof.
  unfold Py.int_of_byte. pose proof (Byte.to_N_bounded b). lia.
Qed.

Lemma getitem_nonneg {A : Type} (l : list A) (i : Z) :
  0 <= i ->
  Py.getitem l i = if i <? Py.len l then nth_error l (Z.to_nat i) else None.
Proof.
  intros Hi. unfold Py.getitem.
  destruct (i <? 0) eqn:E; [lia|].
  destruct (0 <=? i) eqn:E0; [|lia]. reflexivity.
Qed.

Lemma getitem_Some_lt {A : Type} (l : list A) (i : Z) (x : A) :
  0 <= i -> Py.getitem l i = Some x -> i < Py.len l.
Proof.
  intros Hi H. rewrite getitem_nonneg in H by assumption.
  destruct (i <? Py.len l) eqn:E; [lia|discriminate].
Qed.

Lemma getitem_lt_Some {A : Type} (l : list A) (i : Z) :
  0 <= i < Py.len l -> exists x, Py.getitem l i = Some x.
Proof.
  intros Hi. rewrite getitem_nonneg by lia.
  destruct (i <? Py.len l) eqn:E; [|lia].
  destruct (nth_error l (Z.to_nat i)) eqn:N; [eauto|].
  apply nth_error_None in N. unfold Py.len in Hi. lia.
Qed.

Lemma slice_nonneg {A : Type} (l : list A) (i j : Z) :
  0 <= i -> 0 <= j ->
  Py.slice l i j =
  firstn (Z.to_nat (Z.min j (Py.len l) - Z.min i (Py.len l)))
         (skipn (Z.to_nat (Z.min i (Py.len l))) l).
Proof.
  intros Hi Hj. unfold Py.slice, Py.clamp.
  destruct (i <? 0) eqn:Ei; [lia|]. destruct (j <? 0) eqn:Ej; [lia|].
  reflexivity.
Qed.

Lemma slice_len {A : Type} (l : list A) (i n : Z) :
  0 <= i -> 0 <= n ->
  Py.len (Py.slice l i (i + n)) =
  Z.min (i + n) (Py.len l) - Z.min i (Py.len l).
Proof.
  intros Hi Hn. rewrite slice_nonneg by lia.
  unfold Py.len. rewrite length_firstn, length_skipn. lia.
Qed.

Lemma slice_full_iff {A : Type} (l : list A) (i n : Z) :
  0 <= i -> 0 < n ->
  Py.len (Py.slice l i (i + n)) = n <-> i + n <= Py.len l.
Proof.
  intros Hi Hn. rewrite slice_len by lia. lia.
Qed.

Lemma slice_in_range {A : Type} (l : list A) (i n : Z) :
  0 <= i -> 0 <= n -> i + n <= Py.len l ->
  Py.slice l i (i + n) = firstn (Z.to_nat n) (skipn (Z.to_nat i) l).
Proof.
  intros Hi Hn H. rewrite slice_nonneg by lia.
  rewrite !Z.min_l by lia. f_equal. lia.
Qed.

Lemma le_value_bound (bs : list byte) :
  0 <= Py.le_value bs < 256 ^ Py.len bs.
Proof.
  induction bs as [|b bs IH].
  - simpl. lia.
  - cbn [Py.le_value]. pose proof (int_of_byte_range b).
    replace (Py.len (b :: bs)) with (Z.succ (Py.len bs))
      by (unfold Py.len; cbn [length]; lia).
    rewrite Z.pow_succ_r by apply len_nonneg. lia.
Qed.

Lemma unpack_ok (width : Z) (bs : list byte) :
  Py.len bs = width -> Py.unpack width bs = inr (Py.le_value bs).
Proof.
  intros H. unfold Py.unpack. rewrite (proj2 (Z.eqb_eq _ _) H). reflexivity.
Qed.

Lemma unpack_range (width : Z) (bs : list byte) (v : Z) :
  Py.unpack width bs = inr v -> Py.len bs = width /\ 0 <= v < 256 ^ width.
Proof.
  unfold Py.unpack. destruct (Py.len bs =? width) eqn:E; [|discriminate].
  intros H. injection H as <-. apply Z.eqb_eq in E. subst width.
  split; [reflexivity|apply le_value_bound].
Qed.

(** ** The output stream *)

Lemma write_at_end (v data : list byte) :
  BytesIO.write (BytesIO.mk v (Py.len v)) data =
  BytesIO.mk (v ++ data) (Py.len v + Py.len data).
Proof.
  unfold BytesIO.write. cbn [BytesIO.value BytesIO.position].
  rewrite Z.ltb_irrefl. f_equal.
  unfold Py.len. rewrite Nat2Z.id, firstn_all.
  rewrite skipn_all2 by lia. rewrite app_nil_r. reflexivity.
Qed.

Lemma firstn_1_skipn {A : Type} (l : list A) (n : nat) (x : A) :
  nth_error l n = Some x -> firstn 1 (skipn n l) = [x].
Proof.
  revert n. induction l as [|y l IH]; intros [|n] H; cbn in *;
    try discriminate.
  - injection H as ->. reflexivity.
  - apply IH. assumption.
Qed.

Lemma read_one_inside (v : list byte) (p : Z) (x : byte) :
  0 <= p -> nth_error v (Z.to_nat p) = Some x ->
  BytesIO.read (BytesIO.mk v p) 1 = ([x], BytesIO.mk v (p + 1)).
Proof.
  intros Hp Hx. unfold BytesIO.read. cbn [BytesIO.value BytesIO.position].
  assert (Hlt : p + 1 <= Py.len v).
  { assert (Z.to_nat p < length v)%nat
      by (apply nth_error_Some; congruence).
    unfold Py.len. lia. }
  rewrite slice_in_range by lia.
  change (Z.to_nat 1) with 1%nat.
  rewrite (firstn_1_skipn _ _ _ Hx). reflexivity.
Qed.

Lemma read_one_outside (v : list byte) (p : Z) :
  Py.len v <= p ->
  BytesIO.read (BytesIO.mk v p) 1 = ([], BytesIO.mk v p).
Proof.
  intros Hp. unfold BytesIO.read. cbn [BytesIO.value BytesIO.position].
  pose proof (len_nonneg v).
  assert (E : Py.slice v p (p + 1) = []).
  { apply length_zero_iff_nil.
    pose proof (slice_len v p 1 ltac:(lia) ltac:(lia)) as L.
    unfold Py.len in L at 1. lia. }
  rewrite E. cbn. rewrite Z.add_0_r. reflexivity.
Qed.

(** ** The pieces of the loop body *)

Section Body.

Variable Buffer : list byte.

Lemma refill_cases (s : state) :
  0 <= InputPosition s ->
  (BufferedFlagCount s <> 0 /\ refill Buffer s = Normal s) \/
  (BufferedFlagCount s = 0 /\ Py.len Buffer < InputPosition s + 4 /\
   refill Buffer s = Break s) \/
  (BufferedFlagCount s = 0 /\ InputPosition s + 4 <= Py.len Buffer /\
   exists w, 0 <= w < 2 ^ 32 /\
     refill Buffer s =
     Normal (set_BufferedFlagCount 32
              (set_InputPosition (InputPosition s + 4)
                (set_BufferedFlags w s)))).
Proof.
  intros Hp. unfold refill.
  destruct (BufferedFlagCount s =? 0) eqn:E.
  - apply Z.eqb_eq in E. right.
    pose proof (slice_full_iff Buffer (InputPosition s) 4 Hp ltac:(lia)) as F.
    destruct (Py.len (Py.slice Buffer (InputPosition s) (InputPosition s + 4))
              =? 4) eqn:L; cbn [negb].
    + right. apply Z.eqb_eq in L. repeat split; [assumption|lia|].
      rewrite (unpack_ok 4 _ L). cbn [lift bind].
      eexists. split; [|reflexivity].
      pose proof (le_value_bound
        (Py.slice Buffer (InputPosition s) (InputPosition s + 4))) as B.
      rewrite L in B. exact B.
    + left. apply Z.eqb_neq in L. repeat split; [assumption|lia].
  - left. apply Z.eqb_neq in E. split; [assumption|reflexivity].
Qed.

Lemma take_flag_cases (s : state) :
  1 <= BufferedFlagCount s ->
  take_flag s =
  Normal (Z.land (BufferedFlags s) (Z.shiftl 1 (BufferedFlagCount s - 1)) =? 0,
          set_BufferedFlagCount (BufferedFlagCount s - 1) s).
Proof.
  intros Hc. unfold take_flag, Py.lshift.
  cbn [BufferedFlagCount set_BufferedFlagCount BufferedFlags].
  destruct (BufferedFlagCount s - 1 <? 0) eqn:E; [lia|]. reflexivity.
Qed.

Lemma literal_cases (s : state) :
  0 <= InputPosition s -> 0 <= OutputPosition s ->
  (Py.len Buffer <= InputPosition s /\ literal Buffer s = Break s) \/
  (exists OneByte,
     Py.getitem Buffer (InputPosition s) = Some OneByte /\
     InputPosition s < Py.len Buffer /\
     ((2 * 1024 * 1024 * 1024 <= OutputPosition s /\
       literal Buffer s = Break s) \/
      (OutputPosition s < 2 * 1024 * 1024 * 1024 /\
       literal Buffer s =
       Normal (set_OutputPosition (OutputPosition s + 1)
                (set_InputPosition (InputPosition s + 1)
                  (set_OutputObject
                     (BytesIO.write
                        (BytesIO.mk (BytesIO.value (OutputObject s))
                                    (OutputPosition s)) [OneByte]) s)))))).
Proof.
  intros Hp Ho. unfold literal.
  destruct (Py.getitem Buffer (InputPosition s)) as [b|] eqn:G.
  - right. exists b. split; [reflexivity|].
    split; [eapply getitem_Some_lt; eassumption|].
    unfold is_valid_write_request, BytesIO.seek.
    destruct (OutputPosition s <? 2 * 1024 * 1024 * 1024) eqn:V.
    + right. split; [lia|].
      destruct (OutputPosition s <? 0) eqn:N; [lia|]. reflexivity.
    + left. split; [lia|reflexivity].
  - left. split; [|reflexivity].
    destruct (Z_lt_dec (InputPosition s) (Py.len Buffer)) as [L|L]; [|lia].
    destruct (getitem_lt_Some Buffer (InputPosition s) ltac:(lia)) as [x Hx].
    congruence.
Qed.

Lemma read_match_word_cases (s : state) :
  0 <= InputPosition s ->
  (Py.len Buffer < InputPosition s + 2 /\
   read_match_word Buffer s = Break s) \/
  (InputPosition s + 2 <= Py.len Buffer /\
   exists MatchBytes, 0 <= MatchBytes < 2 ^ 16 /\
     read_match_word Buffer s =
     Normal (MatchBytes, set_InputPosition (InputPosition s + 2) s)).
Proof.
  intros Hp. unfold read_match_word.
  pose proof (slice_full_iff Buffer (InputPosition s) 2 Hp ltac:(lia)) as F.
  destruct (Py.len (Py.slice Buffer (InputPosition s) (InputPosition s + 2))
            =? 2) eqn:L; cbn [negb].
  - right. apply Z.eqb_eq in L. split; [lia|].
    rewrite (unpack_ok 2 _ L). cbn [lift bind].
    eexists. split; [|reflexivity].
    pose proof (le_value_bound
      (Py.slice Buffer (InputPosition s) (InputPosition s + 2))) as B.
    rewrite L in B. exact B.
  - left. apply Z.eqb_neq in L. split; [lia|reflexivity].
Qed.

End Body.

(** ** The length of a match *)

Section Length.

Variable Buffer : list byte.

Lemma keeps_output_refl (s : state) : keeps_output s s.
Proof. repeat split. Qed.

Lemma length_nibble_outcome (e : state) :
  consistent Buffer e -> 6 <= InputPosition e ->
  length_outcome Buffer e 0 15 (length_nibble Buffer e).
Proof.
  intros [Hin Hout Hc] H6. unfold length_nibble.
  destruct (LastLengthHalfByte e =? 0) eqn:E.
  - destruct (Py.getitem Buffer (InputPosition e)) as [b|] eqn:G; cbn.
    + pose proof (getitem_Some_lt Buffer (InputPosition e) b ltac:(lia) G).
      pose proof (int_of_byte_range b).
      pose proof (Z.mod_pos_bound (Py.int_of_byte b) 16 ltac:(lia)).
      repeat split; cbn; lia.
    + repeat split; assumption || lia.
  - apply Z.eqb_neq in E.
    destruct (Py.getitem Buffer (LastLengthHalfByte e)) as [b|] eqn:G; cbn.
    + pose proof (int_of_byte_range b).
      assert (0 <= Py.int_of_byte b / 16 <= 15).
      { split; [apply Z.div_pos; lia|].
        apply Z.lt_succ_r. apply Z.div_lt_upper_bound; lia. }
      repeat split; cbn; lia.
    + repeat split; assumption || lia.
Qed.

(** A remembered byte is always there to be read again. *)
Lemma cached_byte_readable (e : state) :
  consistent Buffer e -> LastLengthHalfByte e <> 0 ->
  exists B,
    Py.getitem Buffer (LastLengthHalfByte e) = Some B /\
    length_nibble Buffer e =
    Normal (Py.int_of_byte B / 16, set_LastLengthHalfByte 0 e).
Proof.
  intros [Hin Hout Hc] Hne. unfold length_nibble.
  destruct (LastLengthHalfByte e =? 0) eqn:E; [apply Z.eqb_eq in E; lia|].
  destruct (getitem_lt_Some Buffer (LastLengthHalfByte e) ltac:(lia))
    as [B HB].
  exists B. rewrite HB. split; reflexivity.
Qed.

Lemma length_escape_outcome (n : Z) (e : state) :
  consistent Buffer e -> 0 <= n <= 15 ->
  length_outcome Buffer e 0 (65535 - 22 + 15) (length_escape Buffer n e).
Proof.
  intros [Hin Hout Hc] Hn. unfold length_escape.
  destruct (n =? 15) eqn:E.
  - destruct (Py.getitem Buffer (InputPosition e)) as [b|] eqn:G.
    + pose proof (getitem_Some_lt Buffer (InputPosition e) b ltac:(lia) G).
      pose proof (int_of_byte_range b).
      cbv zeta. cbn [InputPosition set_InputPosition].
      destruct (Py.int_of_byte b =? 255) eqn:E255.
      * pose proof (slice_full_iff Buffer (InputPosition e + 1) 2
                      ltac:(lia) ltac:(lia)) as F.
        destruct (Py.len (Py.slice Buffer (InputPosition e + 1)
                            (InputPosition e + 1 + 2)) =? 2) eqn:L;
          cbn [negb].
        -- apply Z.eqb_eq in L. rewrite (unpack_ok 2 _ L).
           cbn [lift bind].
           pose proof (le_value_bound (Py.slice Buffer (InputPosition e + 1)
                         (InputPosition e + 1 + 2))) as B.
           rewrite L in B. change (256 ^ 2) with 65536 in B.
           destruct (_ <? 15 + 7) eqn:L22; cbn.
           ++ repeat split; cbn; lia.
           ++ repeat split; cbn; lia.
        -- cbn. repeat split; cbn; lia.
      * cbn. repeat split; cbn; lia.
    + cbn. repeat split; assumption || lia.
  - apply Z.eqb_neq in E. cbn. repeat split; assumption || lia.
Qed.

Lemma match_length_outcome (MatchBytes : Z) (e : state) :
  consistent Buffer e -> 6 <= InputPosition e ->
  length_outcome Buffer e 3 65538 (match_length Buffer MatchBytes e).
Proof.
  intros He H6. unfold match_length.
  pose proof (Z.mod_pos_bound MatchBytes 8 ltac:(lia)) as M.
  destruct (MatchBytes mod 8 =? 7) eqn:E.
  - pose proof (length_nibble_outcome e He H6) as N.
    destruct (length_nibble Buffer e) as [[n s1]|s1| |]; cbn in *;
      try contradiction.
    + destruct N as (Hn & Hs1 & Hp1 & K1).
      pose proof (length_escape_outcome n s1 Hs1 Hn) as X.
      destruct (length_escape Buffer n s1) as [[m s2]|s2| |]; cbn in *;
        try contradiction.
      * destruct X as (Hm & Hs2 & Hp2 & K2).
        unfold keeps_output in *. intuition (try lia; try congruence).
      * destruct X as (Hs2 & Hp2 & K2).
        unfold keeps_output in *. intuition (try lia; try congruence).
    + assumption.
  - apply Z.eqb_neq in E. cbn. repeat split; try lia; apply He.
Qed.

End Length.

(** ** The copy of a match *)

Section Copy.

Variable Buffer : list byte.

Lemma copy_byte_cases (MatchOffset : Z) (s : state) :
  consistent Buffer s ->
  let v := BytesIO.value (OutputObject s) in
  let p := OutputPosition s in
  (p - MatchOffset < 0 /\ copy_byte MatchOffset s = Normal (true, s)) \/
  (MatchOffset <= 0 /\
   copy_byte MatchOffset s =
   Normal (true, set_OutputObject (BytesIO.mk v (p - MatchOffset)) s)) \/
  (exists x,
     0 <= p - MatchOffset < p /\
     nth_error v (Z.to_nat (p - MatchOffset)) = Some x /\
     ((2 * 1024 * 1024 * 1024 <= p /\
       copy_byte MatchOffset s =
       Normal (true,
               set_OutputObject (BytesIO.mk v (p - MatchOffset + 1)) s)) \/
      (p < 2 * 1024 * 1024 * 1024 /\
       copy_byte MatchOffset s =
       Normal (false,
               set_OutputPosition (p + 1)
                 (set_OutputObject (BytesIO.mk (v ++ [x]) (p + 1)) s))))).
Proof.
  intros [Hin Hout Hc] v p. subst v p. unfold copy_byte.
  destruct (OutputPosition s - MatchOffset <? 0) eqn:N.
  - left. split; [lia|reflexivity].
  - right.
    assert (S1 : BytesIO.seek (OutputObject s)
                   (OutputPosition s - MatchOffset) =
                 inr (BytesIO.mk (BytesIO.value (OutputObject s))
                                 (OutputPosition s - MatchOffset)))
      by (unfold BytesIO.seek; rewrite N; reflexivity).
    rewrite S1. cbn [lift bind].
    destruct (Z_le_dec MatchOffset 0) as [Hoff|Hoff].
    + left. split; [assumption|].
      pose proof (read_one_outside (BytesIO.value (OutputObject s))
                    (OutputPosition s - MatchOffset) ltac:(lia)) as R.
      rewrite R. reflexivity.
    + right.
      destruct (nth_error (BytesIO.value (OutputObject s))
                  (Z.to_nat (OutputPosition s - MatchOffset))) as [x|] eqn:X.
      2:{ apply nth_error_None in X. unfold Py.len in Hout. lia. }
      exists x. split; [lia|]. split; [reflexivity|].
      pose proof (read_one_inside (BytesIO.value (OutputObject s))
                    (OutputPosition s - MatchOffset) x ltac:(lia) X) as R.
      rewrite R.
      cbn [Py.len length negb Z.of_nat Pos.of_succ_nat Z.eqb Pos.eqb].
      unfold is_valid_write_request, BytesIO.seek.
      cbn [BytesIO.value].
      destruct (OutputPosition s <? 2 * 1024 * 1024 * 1024) eqn:V.
      * right. split; [lia|].
        destruct (OutputPosition s <? 0) eqn:N0; [lia|].
        cbn [lift bind]. rewrite <- Hout.
        rewrite write_at_end. reflexivity.
      * left. split; [lia|reflexivity].
Qed.

Lemma copy_byte_outcome (MatchOffset : Z) (s : state) :
  consistent Buffer s -> copy_outcome Buffer s 1 (copy_byte MatchOffset s).
Proof.
  intros Hs. pose proof Hs as [Hin Hout Hc].
  destruct (copy_byte_cases MatchOffset s Hs)
    as [[_ E]|[[_ E]|(x & Hr & Hx & [[_ E]|[_ E]])]];
    rewrite E; cbn.
  1-3: (split; [constructor; cbn; assumption|];
        split; [repeat split|];
        exists []; rewrite app_nil_r; cbn;
        repeat split; (reflexivity || lia || discriminate)).
  split; [constructor; cbn; try assumption; rewrite len_app;
          change (Py.len [x]) with 1; lia|].
  split; [repeat split|].
  exists [x]. repeat split; cbn; lia.
Qed.

Lemma copy_loop_outcome (n : nat) (MatchOffset : Z) (s : state) :
  consistent Buffer s ->
  copy_outcome Buffer s n (copy_loop n MatchOffset s).
Proof.
  revert s. induction n as [|n IH]; intros s Hs.
  - cbn. split; [assumption|]. split; [repeat split|].
    exists []. rewrite app_nil_r. repeat split; reflexivity.
  - cbn [copy_loop].
    pose proof (copy_byte_outcome MatchOffset s Hs) as B.
    destruct (copy_byte MatchOffset s) as [[b s1]| | |]; cbn in B |- *;
      try contradiction.
    destruct B as (Hs1 & K1 & ext1 & E1 & L1 & F1).
    destruct b.
    + cbn. split; [assumption|]. split; [assumption|].
      exists ext1. repeat split; (assumption || lia || discriminate).
    + specialize (IH s1 Hs1).
      destruct (copy_loop n MatchOffset s1) as [[b s2]| | |]; cbn in IH |- *;
        try contradiction.
      destruct IH as (Hs2 & K2 & ext2 & E2 & L2 & F2).
      split; [assumption|].
      split; [unfold keeps_input in *; intuition congruence|].
      exists (ext1 ++ ext2). rewrite E2, E1, app_assoc.
      rewrite length_app. specialize (F1 eq_refl).
      repeat split; try lia. intros Hb. specialize (F2 Hb). lia.
Qed.

End Copy.

(** ** One pass through the loop body *)

Section Pass.

Variable Buffer : list byte.

Lemma pass_outcome_from (s s2 : state) (r : ctl state) :
  InputPosition s <= InputPosition s2 ->
  OutputObject s2 = OutputObject s ->
  pass_outcome Buffer s2 r -> pass_outcome Buffer s r.
Proof.
  intros Hp Ho. destruct r as [s'|s'|v|e]; cbn; try rewrite Ho.
  - intros (H1 & H2 & H3). split; [assumption|split; [lia|assumption]].
  - trivial.
  - trivial.
  - trivial.
Qed.

Lemma literal_outcome (s : state) :
  in_body Buffer s -> pass_outcome Buffer s (literal Buffer s).
Proof.
  intros [[Hin Hout Hc] Hcount Hfw].
  pose proof (len_nonneg (BytesIO.value (OutputObject s))) as Hv.
  destruct (literal_cases Buffer s ltac:(lia) ltac:(lia))
    as [[_ E]|(b & Hb & Hlt & [[_ E]|[_ E]])].
  - rewrite E. cbn. exists []. rewrite app_nil_r. reflexivity.
  - rewrite E. cbn. exists []. rewrite app_nil_r. reflexivity.
  - rewrite <- Hout in E. rewrite write_at_end in E. rewrite E. cbn.
    split; [|split; [lia|exists [b]; reflexivity]].
    constructor; cbn; [|lia|lia].
    constructor; cbn; [lia| |lia].
    rewrite len_app. reflexivity.
Qed.

Lemma match_body_outcome (MatchBytes : Z) (e : state) :
  in_body Buffer e -> 6 <= InputPosition e ->
  match match_body Buffer MatchBytes e with
  | Normal s' =>
      at_head Buffer s' /\ InputPosition e <= InputPosition s' /\
      exists ext,
        BytesIO.value (OutputObject s') =
        BytesIO.value (OutputObject e) ++ ext
  | Break s' =>
      exists ext,
        BytesIO.value (OutputObject s') =
        BytesIO.value (OutputObject e) ++ ext
  | Return _ | Raise _ => False
  end.
Proof.
  intros [He Hcount Hfw] H6. unfold match_body.
  pose proof (match_length_outcome Buffer MatchBytes e He H6) as L.
  destruct (match_length Buffer MatchBytes e) as [[n s1]|s1| |];
    cbn in L |- *; try contradiction.
  - destruct L as (Hn & Hs1 & Hp1 & Ho & Hop & Hf & Hfc).
    pose proof (copy_loop_outcome Buffer (Z.to_nat n)
                  (MatchBytes / 8 + 1) s1 Hs1) as C.
    destruct (copy_loop (Z.to_nat n) (MatchBytes / 8 + 1) s1)
      as [[b s2]| | |]; cbn in C |- *; try contradiction.
    destruct C as (Hs2 & (Kp & Kl & Kf & Kc) & ext & Hext & _).
    rewrite Ho in Hext.
    destruct b; cbn.
    + exists ext. assumption.
    + split; [|split; [lia|exists ext; assumption]].
      constructor; [assumption|lia|lia].
  - destruct L as (_ & _ & Ho & _). rewrite Ho.
    exists []. rewrite app_nil_r. reflexivity.
Qed.

Lemma process_match_outcome (s : state) :
  in_body Buffer s -> pass_outcome Buffer s (process_match Buffer s).
Proof.
  intros Hs. pose proof Hs as [[Hin Hout Hc] Hcount Hfw].
  unfold process_match.
  destruct (InputPosition s =? Py.len Buffer) eqn:E; [reflexivity|].
  destruct (read_match_word_cases Buffer s ltac:(lia))
    as [[_ R]|(_ & W & _ & R)]; rewrite R; cbn [bind].
  - exists []. rewrite app_nil_r. reflexivity.
  - set (e := set_InputPosition (InputPosition s + 2) s).
    assert (He : in_body Buffer e).
    { destruct (read_match_word_cases Buffer s ltac:(lia))
        as [[_ R']|(Hle & _)]; [congruence|].
      constructor; cbn; [|lia|lia].
      constructor; cbn; lia. }
    pose proof (match_body_outcome W e He ltac:(cbn; lia)) as B.
    destruct (match_body Buffer W e) as [s'|s'| |]; cbn in B |- *;
      try contradiction.
    + destruct B as (H1 & H2 & H3). cbn in H2.
      split; [assumption|split; [lia|assumption]].
    + assumption.
Qed.

Lemma refill_outcome (s : state) :
  at_head Buffer s ->
  match refill Buffer s with
  | Normal s1 =>
      consistent Buffer s1 /\ 1 <= BufferedFlagCount s1 <= 32 /\
      4 <= InputPosition s1 /\ InputPosition s <= InputPosition s1 /\
      OutputObject s1 = OutputObject s /\
      LastLengthHalfByte s1 = LastLengthHalfByte s
  | Break s' => s' = s
  | Return _ | Raise _ => False
  end.
Proof.
  intros [[Hin Hout Hc] Hcount Hfw].
  destruct (refill_cases Buffer s ltac:(lia))
    as [[Hne E]|[(_ & _ & E)|(H0 & Hle & w & _ & E)]]; rewrite E; cbn.
  - repeat split; cbn; (assumption || lia).
  - reflexivity.
  - repeat split; cbn; (assumption || lia).
Qed.

Theorem iteration_outcome (s : state) :
  at_head Buffer s -> pass_outcome Buffer s (iteration Buffer s).
Proof.
  intros Hs. pose proof (refill_outcome s Hs) as R. unfold iteration.
  destruct (refill Buffer s) as [s1|s1| |]; cbn [bind] in *;
    try contradiction.
  - destruct R as (Hs1 & Hcount & H4 & Hp & Ho & Hl).
    rewrite (take_flag_cases s1) by lia. cbn [bind].
    set (s2 := set_BufferedFlagCount (BufferedFlagCount s1 - 1) s1).
    assert (Hs2 : in_body Buffer s2).
    { destruct Hs1. constructor; cbn; [|lia|lia].
      constructor; cbn; assumption. }
    apply (pass_outcome_from s s2); [cbn; lia|cbn; assumption|].
    destruct (Z.land _ _ =? 0).
    + apply literal_outcome. assumption.
    + apply process_match_outcome. assumption.
  - subst s1. cbn. exists []. rewrite app_nil_r. reflexivity.
Qed.

Lemma initial_at_head : at_head Buffer initial_state.
Proof.
  pose proof (len_nonneg Buffer).
  constructor; cbn; [|lia|lia]. constructor; cbn; lia.
Qed.

Lemma reachable_at_head (s : state) :
  reachable Buffer s -> at_head Buffer s.
Proof.
  induction 1 as [|s s' _ IH E].
  - apply initial_at_head.
  - pose proof (iteration_outcome s IH) as P. rewrite E in P. apply P.
Qed.

End Pass.

(** ** The whole loop *)

Section Run.

Variable Buffer : list byte.

Lemma while_True_enough (fuel : nat) (s : state) :
  at_head Buffer s ->
  Py.len Buffer - InputPosition s < Z.of_nat fuel ->
  exists r out, while_True Buffer fuel s = Some r /\ finish r = inr out.
Proof.
  revert s. induction fuel as [|fuel IH]; intros s Hs Hf.
  - destruct Hs as [[Hin _ _] _ _]. lia.
  - cbn [while_True].
    pose proof (iteration_outcome Buffer s Hs) as P.
    destruct (iteration Buffer s) as [s'|s'|v|e]; cbn in P.
    + destruct P as (Hs' & Hlt & _). apply IH; [assumption|lia].
    + eexists. eexists. split; reflexivity.
    + eexists. eexists. split; reflexivity.
    + contradiction.
Qed.

Lemma while_True_more (fuel k : nat) (s : state) (r : stop) :
  while_True Buffer fuel s = Some r ->
  while_True Buffer (fuel + k) s = Some r.
Proof.
  revert s. induction fuel as [|fuel IH]; intros s H; [discriminate|].
  cbn [while_True Nat.add] in *.
  destruct (iteration Buffer s); try assumption. apply IH. assumption.
Qed.

Lemma reachable_run (s : state) :
  reachable Buffer s ->
  exists k : nat,
    Z.of_nat k <= InputPosition s /\
    forall fuel, while_True Buffer (k + fuel) initial_state =
                 while_True Buffer fuel s.
Proof.
  induction 1 as [|s s' Hr (k & Hk & IH) E].
  - exists 0%nat. split; [cbn; lia|reflexivity].
  - exists (S k). split.
    + pose proof (iteration_outcome Buffer s
                    (reachable_at_head Buffer s Hr)) as P.
      rewrite E in P. cbn in P. lia.
    + intros fuel. replace (S k + fuel)%nat with (k + S fuel)%nat by lia.
      rewrite IH. cbn [while_True]. rewrite E. reflexivity.
Qed.

Lemma run_result (s : state) (r : stop) :
  reachable Buffer s -> while_True Buffer 1 s = Some r ->
  LZ77DecompressBuffer Buffer = Some (finish r).
Proof.
  intros Hr H1. destruct (reachable_run s Hr) as (k & Hk & Hrun).
  pose proof (reachable_at_head Buffer s Hr) as [[Hin _ _] _ _].
  unfold LZ77DecompressBuffer, Py.len in *.
  replace (S (length Buffer)) with (k + (1 + (length Buffer - k)))%nat
    by lia.
  rewrite Hrun. rewrite (while_True_more _ _ _ _ H1). reflexivity.
Qed.

Lemma break_result (s s' : state) :
  reachable Buffer s -> iteration Buffer s = Break s' ->
  LZ77DecompressBuffer Buffer =
  Some (inr (BytesIO.value (OutputObject s'))).
Proof.
  intros Hr E. apply (run_result s (Broke s') Hr).
  cbn. rewrite E. reflexivity.
Qed.

End Run.

(** ** Matches in a run *)

Section Matches.

Variable Buffer : list byte.

Lemma enters_match_facts (s : state) (MatchBytes : Z) (e : state) :
  at_head Buffer s -> enters_match Buffer s MatchBytes e ->
  in_body Buffer e /\ 6 <= InputPosition e /\
  InputPosition s + 2 <= InputPosition e /\
  0 <= MatchBytes < 2 ^ 16 /\
  OutputObject e = OutputObject s /\
  OutputPosition e = OutputPosition s /\
  LastLengthHalfByte e = LastLengthHalfByte s /\
  iteration Buffer s = match_body Buffer MatchBytes e.
Proof.
  intros Hs (s1 & s2 & R & T & Hne & M).
  pose proof (refill_outcome Buffer s Hs) as P. rewrite R in P.
  destruct P as (Hs1 & Hcount & H4 & Hp & Ho & Hl).
  rewrite (take_flag_cases s1) in T by lia.
  injection T as Hbit <-.
  set (s2 := set_BufferedFlagCount (BufferedFlagCount s1 - 1) s1) in *.
  destruct (read_match_word_cases Buffer s2 ltac:(cbn; lia))
    as [[_ M']|(Hle & W & HW & M')]; [congruence|].
  rewrite M' in M. injection M as -> <-.
  pose proof Hs1 as [Hin1 Hout1 Hc1]. cbn in Hle.
  split; [constructor; cbn; [|lia|lia]; constructor; cbn; lia|].
  cbn. repeat split; try (assumption || lia || congruence).
  - destruct Hs as [[_ Hout _] _ _]. congruence.
  - unfold iteration. rewrite R. cbn [bind].
    rewrite (take_flag_cases s1) by lia. cbn [bind]. rewrite Hbit.
    fold s2. unfold process_match.
    destruct (InputPosition s2 =? Py.len Buffer) eqn:E;
      [apply Z.eqb_eq in E; contradiction|].
    rewrite M'. reflexivity.
Qed.

(** A pass that is no match with length field 7 leaves the remembered
    byte alone. *)
Lemma quiet_pass_keeps_cache (s s' : state) :
  at_head Buffer s -> ~ field7_pass Buffer s ->
  iteration Buffer s = Normal s' ->
  LastLengthHalfByte s' = LastLengthHalfByte s.
Proof.
  intros Hs Hq E.
  pose proof (refill_outcome Buffer s Hs) as P. unfold iteration in E.
  destruct (refill Buffer s) as [s1| | |] eqn:R; cbn [bind] in E;
    try discriminate.
  destruct P as (Hs1 & Hcount & H4 & Hp & Ho & Hl).
  pose proof (take_flag_cases s1 ltac:(lia)) as T.
  rewrite T in E. cbn [bind] in E.
  set (s2 := set_BufferedFlagCount (BufferedFlagCount s1 - 1) s1) in *.
  pose proof Hs1 as [Hin1 Hout1 Hc1].
  destruct (Z.land _ _ =? 0) eqn:Hbit.
  - pose proof (len_nonneg (BytesIO.value (OutputObject s1))).
    destruct (literal_cases Buffer s2 ltac:(cbn; lia) ltac:(cbn; lia))
      as [[_ L]|(b & _ & _ & [[_ L]|[_ L]])]; rewrite L in E;
      try discriminate.
    injection E as <-. cbn. assumption.
  - unfold process_match in E.
    destruct (InputPosition s2 =? Py.len Buffer) eqn:Elen;
      [discriminate|].
    apply Z.eqb_neq in Elen.
    destruct (read_match_word Buffer s2) as [[W e]| | |] eqn:M;
      cbn [bind] in E; try discriminate.
    assert (Hm : enters_match Buffer s W e)
      by (exists s1, s2; repeat split; assumption).
    destruct (enters_match_facts s W e Hs Hm)
      as ([He _ _] & H6 & _ & _ & _ & _ & Hle & _).
    assert (H7 : W mod 8 <> 7)
      by (intros H7; apply Hq; exists W, e; split; assumption).
    unfold match_body, match_length in E.
    apply Z.eqb_neq in H7. rewrite H7 in E. cbn [bind] in E.
    pose proof (copy_loop_outcome Buffer (Z.to_nat (W mod 8 + 3))
                  (W / 8 + 1) e He) as C.
    destruct (copy_loop _ _ e) as [[b s3]| | |]; cbn in C, E;
      try contradiction.
    destruct C as (_ & (_ & Kl & _) & _).
    destruct b; [discriminate|]. injection E as <-. congruence.
Qed.

Lemma quiet_run_keeps_cache (s s' : state) :
  at_head Buffer s -> quiet_run Buffer s s' ->
  at_head Buffer s' /\ LastLengthHalfByte s' = LastLengthHalfByte s.
Proof.
  intros Hs Hq. induction Hq as [s|s s1 s2 Hn E _ IH].
  - split; [assumption|reflexivity].
  - pose proof (iteration_outcome Buffer s Hs) as P. rewrite E in P.
    destruct P as (Hs1 & _). destruct (IH Hs1) as [H2 El].
    split; [assumption|].
    rewrite El. apply quiet_pass_keeps_cache; assumption.
Qed.

End Matches.

(** ** Copies that overlap what they write *)

Lemma nth_error_prefix {A : Type} (l l' : list A) (k j : nat) :
  firstn k l' = l -> (j < k)%nat -> nth_error l' j = nth_error l j.
Proof.
  intros <- Hj. rewrite nth_error_firstn.
  destruct (Nat.ltb_spec j k); [reflexivity|lia].
Qed.

Section Overlap.

Variable Buffer : list byte.

Lemma copy_loop_overlap (n : nat) (MatchOffset : Z) (c : state) :
  consistent Buffer c ->
  1 <= MatchOffset <= OutputPosition c ->
  OutputPosition c + Z.of_nat n <= 2 * 1024 * 1024 * 1024 ->
  let v := BytesIO.value (OutputObject c) in
  exists c',
    copy_loop n MatchOffset c = Normal (false, c') /\
    consistent Buffer c' /\
    let v' := BytesIO.value (OutputObject c') in
    length v' = (length v + n)%nat /\
    firstn (length v) v' = v /\
    forall i : nat,
      (length v <= i < length v + n)%nat ->
      nth_error v' i = nth_error v' (i - Z.to_nat MatchOffset).
Proof.
  cbv zeta. revert c. induction n as [|n IH]; intros c Hc Hoff Hceil.
  - exists c. cbn. split; [reflexivity|]. split; [assumption|].
    split; [lia|]. split; [apply firstn_all|]. intros i Hi. lia.
  - pose proof Hc as [Hin Hout Hca].
    destruct (copy_byte_cases Buffer MatchOffset c Hc)
      as [[Hneg _]|[[Hle _]|(x & Hr & Hx & [[Hge _]|[_ E]])]]; try lia.
    set (v := BytesIO.value (OutputObject c)) in *.
    set (c1 := set_OutputPosition (OutputPosition c + 1)
                 (set_OutputObject
                    (BytesIO.mk (v ++ [x]) (OutputPosition c + 1)) c)) in *.
    assert (Hc1 : consistent Buffer c1).
    { constructor; cbn; try assumption. rewrite len_app.
      change (Py.len [x]) with 1. lia. }
    destruct (IH c1 Hc1 ltac:(cbn; lia) ltac:(cbn; lia))
      as (c' & Hrun & Hc' & Hlen & Hpre & Hnth).
    cbn [OutputObject set_OutputPosition set_OutputObject c1
         BytesIO.value] in Hlen, Hpre, Hnth.
    set (v' := BytesIO.value (OutputObject c')) in *.
    rewrite length_app in Hlen, Hpre, Hnth. cbn [length] in Hlen, Hpre, Hnth.
    exists c'. cbn [copy_loop]. rewrite E. cbn [bind]. fold c1.
    split; [exact Hrun|]. split; [exact Hc'|].
    assert (Hv : firstn (length v) v' = v).
    { replace (length v) with (Nat.min (length v) (length v + 1)) at 1
        by lia.
      rewrite <- firstn_firstn, Hpre, firstn_app, firstn_all.
      rewrite Nat.sub_diag. cbn. apply app_nil_r. }
    fold v'. split; [lia|]. split; [exact Hv|].
    intros i Hi. unfold Py.len in Hout.
    destruct (Nat.eq_dec i (length v)) as [->|Hne].
    + rewrite (nth_error_prefix _ _ _ (length v) Hpre) by lia.
      rewrite nth_error_app2, Nat.sub_diag by lia.
      rewrite (nth_error_prefix _ _ _ (length v - Z.to_nat MatchOffset) Hv)
        by lia.
      replace (length v - Z.to_nat MatchOffset)%nat
        with (Z.to_nat (OutputPosition c - MatchOffset)) by lia.
      rewrite Hx. reflexivity.
    + apply Hnth. lia.
Qed.

End Overlap.

(** * The properties *)

(** C1: the length of a match.  In a pass of a run that takes the branch
    of a match with match word [MatchBytes], decoded from the state [e]
    behind the word: a length field f of 0 to 6 gives f + 3 (3 to 9);
    the field 7 with a length extension n of 0 to 14 gives n + 7 + 3
    (10 to 24); the extension 15 with an escape byte B2 other than 255
    gives B2 + 15 + 7 + 3; the escape byte 255 with a 16-bit value L of
    at least 22 gives (L - 22) + 15 + 7 + 3; and L below 22 leaves the
    loop with [break], so that the function returns the output as it was
    before the match.  The length decoded is the number of bytes the pass
    then sets out to copy. *)
Theorem match_length_arithmetic
  (Buffer : list byte) (s : state) (MatchBytes : Z) (e : state) :
  reachable Buffer s -> enters_match Buffer s MatchBytes e ->
  let f := MatchBytes mod 8 in
  (forall MatchLength e',
     match_length Buffer MatchBytes e = Normal (MatchLength, e') ->
     iteration Buffer s =
     ('(bogus_data, s') <-
        copy_loop (Z.to_nat MatchLength) (MatchBytes / 8 + 1) e' ;;
      if bogus_data : bool then Break s' else Normal s')) /\
  (0 <= f <= 6 ->
   match_length Buffer MatchBytes e = Normal (f + 3, e) /\
   3 <= f + 3 <= 9) /\
  (f = 7 ->
   forall n e1, length_nibble Buffer e = Normal (n, e1) ->
   (0 <= n <= 14 ->
    match_length Buffer MatchBytes e = Normal (n + 7 + 3, e1) /\
    10 <= n + 7 + 3 <= 24) /\
   (n = 15 ->
    forall B2, Py.getitem Buffer (InputPosition e1) = Some B2 ->
    let e2 := set_InputPosition (InputPosition e1 + 1) e1 in
    (Py.int_of_byte B2 <> 255 ->
     match_length Buffer MatchBytes e =
     Normal (Py.int_of_byte B2 + 15 + 7 + 3, e2)) /\
    (Py.int_of_byte B2 = 255 ->
     forall L,
       Py.unpack 2 (Py.slice Buffer (InputPosition e2)
                                    (InputPosition e2 + 2)) = inr L ->
     let e3 := set_InputPosition (InputPosition e2 + 2) e2 in
     (22 <= L ->
      match_length Buffer MatchBytes e =
      Normal ((L - 22) + 15 + 7 + 3, e3)) /\
     (L < 22 ->
      match_length Buffer MatchBytes e = Break e3 /\
      iteration Buffer s = Break e3 /\
      LZ77DecompressBuffer Buffer =
      Some (inr (BytesIO.value (OutputObject s))))))).
Proof.
  intros Hr Hm f.
  destruct (enters_match_facts Buffer s MatchBytes e
              (reachable_at_head Buffer s Hr) Hm)
    as ([He _ _] & H6 & _ & HW & Ho & _ & _ & Hit).
  pose proof (Z.mod_pos_bound MatchBytes 8 ltac:(lia)) as Hf.
  fold f in Hf.
  split; [|split].
  - intros n e' Hl. rewrite Hit. unfold match_body. rewrite Hl.
    reflexivity.
  - intros Hf6. split; [|lia]. unfold match_length. fold f.
    destruct (f =? 7) eqn:E; [apply Z.eqb_eq in E; lia|reflexivity].
  - intros Hf7 n e1 Hn.
    assert (Hml : match_length Buffer MatchBytes e =
                  ('(m, s') <- length_escape Buffer n e1 ;;
                   Normal (m + 7 + 3, s'))).
    { unfold match_length. fold f. rewrite Hf7. cbn [Z.eqb Pos.eqb].
      rewrite Hn. reflexivity. }
    pose proof (length_nibble_outcome Buffer e He H6) as N.
    rewrite Hn in N. destruct N as (_ & _ & _ & Ho1 & _).
    split.
    + intros Hn14. split; [|lia]. rewrite Hml. unfold length_escape.
      destruct (n =? 15) eqn:E; [apply Z.eqb_eq in E; lia|reflexivity].
    + intros -> B2 HB2 e2.
      assert (Hesc : length_escape Buffer 15 e1 =
                if Py.int_of_byte B2 =? 255 then
                  let chunk := Py.slice Buffer (InputPosition e2)
                                               (InputPosition e2 + 2) in
                  if negb (Py.len chunk =? 2) then Break e2
                  else
                    L <- lift (Py.unpack 2 chunk) ;;
                    let e3 := set_InputPosition (InputPosition e2 + 2) e2 in
                    if L <? 15 + 7 then Break e3
                    else Normal (L - (15 + 7) + 15, e3)
                else Normal (Py.int_of_byte B2 + 15, e2)).
      { unfold length_escape. cbn [Z.eqb Pos.eqb]. rewrite HB2.
        reflexivity. }
      split.
      * intros Hne. rewrite Hml, Hesc. apply Z.eqb_neq in Hne.
        rewrite Hne. reflexivity.
      * intros H255 L HL e3. apply Z.eqb_eq in H255.
        rewrite H255 in Hesc. cbv zeta in Hesc.
        destruct (unpack_range _ _ _ HL) as [Hlen _].
        rewrite (proj2 (Z.eqb_eq _ _) Hlen) in Hesc. cbn [negb] in Hesc.
        rewrite HL in Hesc. cbn [lift bind] in Hesc. fold e3 in Hesc.
        split.
        -- intros H22. rewrite Hml, Hesc.
           destruct (L <? 15 + 7) eqn:E; [lia|]. reflexivity.
        -- intros H22.
           assert (Hb : match_length Buffer MatchBytes e = Break e3).
           { rewrite Hml, Hesc.
             destruct (L <? 15 + 7) eqn:E; [reflexivity|lia]. }
           assert (Hi : iteration Buffer s = Break e3).
           { rewrite Hit. unfold match_body. rewrite Hb. reflexivity. }
           split; [assumption|]. split; [assumption|].
           rewrite (break_result Buffer s e3 Hr Hi).
           cbn. rewrite Ho1, Ho. reflexivity.
Qed.

Lemma match_length_arithmetic_witness :
  match_length escape_chunk 7 escape_chunk_entry =
    Break (set_InputPosition 11
             (set_LastLengthHalfByte 7 escape_chunk_entry)) /\
  LZ77DecompressBuffer escape_chunk = Some (inr [x41]).
Proof.
  assert (Hr : reachable escape_chunk escape_chunk_head)
    by (apply (reachable_next _ initial_state); [constructor|reflexivity]).
  assert (Hm : enters_match escape_chunk escape_chunk_head 7
                 escape_chunk_entry)
    by (exists escape_chunk_head,
               (set_BufferedFlagCount 30 escape_chunk_head);
        repeat split; discriminate).
  destruct (match_length_arithmetic escape_chunk escape_chunk_head 7
              escape_chunk_entry Hr Hm) as (_ & _ & H7).
  destruct (H7 eq_refl 15
              (set_InputPosition 8
                 (set_LastLengthHalfByte 7 escape_chunk_entry))
              eq_refl) as (_ & H15).
  destruct (H15 eq_refl xff eq_refl) as (_ & H255).
  destruct (H255 eq_refl 16 eq_refl) as (_ & Hlow).
  destruct (Hlow ltac:(lia)) as (Hb & _ & Hrun).
  split; [exact Hb|exact Hrun].
Defined.

Lemma length_escape_keeps_cache
  (Buffer : list byte) (n m : Z) (e e' : state) :
  length_escape Buffer n e = Normal (m, e') ->
  LastLengthHalfByte e' = LastLengthHalfByte e.
Proof.
  unfold length_escape. destruct (n =? 15).
  - destruct (Py.getitem Buffer (InputPosition e)) as [b|]; [|discriminate].
    cbv zeta. destruct (Py.int_of_byte b =? 255).
    + destruct (negb _); [discriminate|].
      destruct (Py.unpack 2 _) as [x|L]; cbn [lift bind]; [discriminate|].
      destruct (L <? 15 + 7); [discriminate|].
      intros H. injection H as _ <-. reflexivity.
    + intros H. injection H as _ <-. reflexivity.
  - intros H. injection H as _ <-. reflexivity.
Qed.

(** C2, as far as it holds: the length extension byte shared by two
    matches.  The remembered position is 0 (nothing remembered) when a
    run starts.  Of two matches of a run that both carry the length
    field 7, with no other such match between them, and of which the
    first finds nothing remembered: the first reads the byte at the
    input position, takes its low half as its length extension, moves
    the input position by one and remembers where the byte was; the
    second takes the high half of that very byte as its length
    extension, leaves the input position where it is and forgets the
    byte. *)
Theorem shared_extension_byte
  (Buffer : list byte) (s1 : state) (W1 : Z) (e1 s1' s2 : state)
  (W2 : Z) (e2 : state) :
  reachable Buffer s1 ->
  LastLengthHalfByte s1 = 0 ->
  enters_match Buffer s1 W1 e1 -> W1 mod 8 = 7 ->
  iteration Buffer s1 = Normal s1' ->
  quiet_run Buffer s1' s2 ->
  enters_match Buffer s2 W2 e2 -> W2 mod 8 = 7 ->
  LastLengthHalfByte initial_state = 0 /\
  LastLengthHalfByte s1' = InputPosition e1 /\
  share_extension_byte Buffer e1 e2.
Proof.
  intros Hr H0 Hm1 H71 E1 Hq Hm2 H72.
  pose proof (reachable_at_head Buffer s1 Hr) as Hs1.
  destruct (enters_match_facts Buffer s1 W1 e1 Hs1 Hm1)
    as ([He1 _ _] & H6 & _ & _ & _ & _ & Hl1 & Hit).
  pose proof (iteration_outcome Buffer s1 Hs1) as P.
  rewrite E1 in P. destruct P as (Hs1' & _).
  destruct (quiet_run_keeps_cache Buffer s1' s2 Hs1' Hq) as [Hs2 Hl2].
  destruct (enters_match_facts Buffer s2 W2 e2 Hs2 Hm2)
    as ([He2 _ _] & _ & _ & _ & _ & _ & Hl3 & _).
  (* the first match *)
  rewrite Hit in E1. unfold match_body, match_length in E1.
  rewrite H71 in E1. cbn [Z.eqb Pos.eqb] in E1.
  assert (Hn : length_nibble Buffer e1 =
               match Py.getitem Buffer (InputPosition e1) with
               | None => Break e1
               | Some b =>
                   Normal (Py.int_of_byte b mod 16,
                           set_InputPosition (InputPosition e1 + 1)
                             (set_LastLengthHalfByte (InputPosition e1) e1))
               end).
  { unfold length_nibble. rewrite Hl1, H0. reflexivity. }
  destruct (Py.getitem Buffer (InputPosition e1)) as [B|] eqn:HB;
    rewrite Hn in E1; cbn [bind] in E1; [|discriminate].
  set (e1' := set_InputPosition (InputPosition e1 + 1)
                (set_LastLengthHalfByte (InputPosition e1) e1)) in *.
  destruct (length_escape Buffer (Py.int_of_byte B mod 16) e1')
    as [[m e1'']| | |] eqn:X; cbn [bind] in E1; try discriminate.
  pose proof (length_escape_keeps_cache _ _ _ _ _ X) as K1.
  assert (He1'' : consistent Buffer e1'').
  { pose proof (length_nibble_outcome Buffer e1 He1 H6) as N.
    rewrite Hn in N. destruct N as (Hr16 & He1' & _).
    pose proof (length_escape_outcome Buffer _ e1' He1' Hr16) as Y.
    rewrite X in Y. apply Y. }
  pose proof (copy_loop_outcome Buffer (Z.to_nat (m + 7 + 3))
                (W1 / 8 + 1) e1'' He1'') as C.
  destruct (copy_loop _ _ e1'') as [[b s3]| | |]; cbn in C, E1;
    try contradiction.
  destruct C as (_ & (_ & Kl & _) & _).
  destruct b; [discriminate|]. injection E1 as <-.
  assert (Hcache : LastLengthHalfByte s3 = InputPosition e1)
    by (rewrite Kl, K1; reflexivity).
  split; [reflexivity|]. split; [assumption|].
  (* the second match *)
  exists B. split; [exact HB|]. split; [exact Hn|].
  unfold length_nibble. rewrite Hl3, Hl2, Hcache.
  destruct (InputPosition e1 =? 0) eqn:Z0; [apply Z.eqb_eq in Z0; lia|].
  rewrite HB. reflexivity.
Qed.

Lemma shared_extension_byte_witness :
  share_extension_byte three_matches first_match_entry second_match_entry.
Proof.
  assert (Hr : reachable three_matches first_match_head)
    by (apply (reachable_next _ initial_state); [constructor|reflexivity]).
  assert (Hm1 : enters_match three_matches first_match_head 7
                  first_match_entry)
    by (exists first_match_head,
               (set_BufferedFlagCount 30 first_match_head);
        repeat split; discriminate).
  assert (Hm2 : enters_match three_matches second_match_head 7
                  second_match_entry)
    by (exists second_match_head,
               (set_BufferedFlagCount 29 second_match_head);
        repeat split; discriminate).
  apply (shared_extension_byte three_matches first_match_head 7
           first_match_entry second_match_head second_match_head 7
           second_match_entry Hr eq_refl Hm1 eq_refl eq_refl
           (quiet_done _ _) Hm2 eq_refl).
Defined.

(** C2 as it is worded, of any two neighbouring matches with length
    field 7, fails: of the second and the third such match of a run the
    earlier one reads no byte, and the later one takes no high half. *)
Lemma not_every_field7_pair_shares :
  ~ every_field7_pair_shares three_matches.
Proof.
  intros H.
  assert (Hr : reachable three_matches second_match_head).
  { apply (reachable_next _ first_match_head); [|reflexivity].
    apply (reachable_next _ initial_state); [constructor|reflexivity]. }
  assert (Hm2 : enters_match three_matches second_match_head 7
                  second_match_entry)
    by (exists second_match_head,
               (set_BufferedFlagCount 29 second_match_head);
        repeat split; discriminate).
  assert (Hm3 : enters_match three_matches third_match_head 7
                  third_match_entry)
    by (exists third_match_head,
               (set_BufferedFlagCount 28 third_match_head);
        repeat split; discriminate).
  destruct (H second_match_head 7 second_match_entry third_match_head
              third_match_head 7 third_match_entry Hr Hm2 eq_refl eq_refl
              (quiet_done _ _) Hm3 eq_refl) as (B & HB & H1 & _).
  vm_compute in H1. discriminate H1.
Qed.

(** C3: no exception, whatever the input.  For every byte buffer
    LZ77DecompressBuffer returns a byte sequence and raises nothing;
    whenever a pass of its run leaves the loop with [break], what is
    returned is the output at that point, which begins with the output
    at the start of the pass.  The conditions that end a pass in this
    way: fewer than 4 bytes left for a flag word, no byte left for a
    literal, fewer than 2 bytes left for a match word, no byte left for
    a length extension or an escape byte, a copy that would read before
    the start of the output (bogus_data set, nothing written), and a
    write at or above 2 GiB. *)
Theorem never_raises (Buffer : list byte) :
  (exists OutputBuffer,
     LZ77DecompressBuffer Buffer = Some (inr OutputBuffer)) /\
  (forall s s',
     reachable Buffer s -> iteration Buffer s = Break s' ->
     LZ77DecompressBuffer Buffer =
       Some (inr (BytesIO.value (OutputObject s'))) /\
     exists ext,
       BytesIO.value (OutputObject s') =
       BytesIO.value (OutputObject s) ++ ext) /\
  (forall s e, reachable Buffer s -> iteration Buffer s <> Raise e) /\
  (forall s,
     0 <= InputPosition s -> BufferedFlagCount s = 0 ->
     Py.len Buffer < InputPosition s + 4 -> refill Buffer s = Break s) /\
  (forall s,
     0 <= InputPosition s -> Py.len Buffer <= InputPosition s ->
     literal Buffer s = Break s) /\
  (forall s,
     0 <= InputPosition s -> Py.len Buffer < InputPosition s + 2 ->
     read_match_word Buffer s = Break s) /\
  (forall s,
     0 <= InputPosition s -> Py.len Buffer <= InputPosition s ->
     (LastLengthHalfByte s = 0 -> length_nibble Buffer s = Break s) /\
     length_escape Buffer 15 s = Break s) /\
  (forall s MatchOffset n,
     OutputPosition s - MatchOffset < 0 ->
     copy_loop (S n) MatchOffset s = Normal (true, s)) /\
  (forall s,
     2 * 1024 * 1024 * 1024 <= OutputPosition s ->
     (forall OneByte,
        Py.getitem Buffer (InputPosition s) = Some OneByte ->
        literal Buffer s = Break s) /\
     (forall MatchOffset n,
        consistent Buffer s ->
        exists s',
          copy_loop (S n) MatchOffset s = Normal (true, s') /\
          BytesIO.value (OutputObject s') =
          BytesIO.value (OutputObject s))).
Proof.
  split; [|split; [|split; [|split; [|split; [|split; [|split;
    [|split]]]]]]].
  - destruct (while_True_enough Buffer (S (length Buffer)) initial_state
                (initial_at_head Buffer)) as (r & out & Hr & Hf).
    { cbn [InputPosition initial_state]. unfold Py.len. lia. }
    exists out. unfold LZ77DecompressBuffer. rewrite Hr. cbn.
    rewrite Hf. reflexivity.
  - intros s s' Hr E. split; [apply (break_result Buffer s s' Hr E)|].
    pose proof (iteration_outcome Buffer s
                  (reachable_at_head Buffer s Hr)) as P.
    rewrite E in P. exact P.
  - intros s e Hr E.
    pose proof (iteration_outcome Buffer s
                  (reachable_at_head Buffer s Hr)) as P.
    rewrite E in P. exact P.
  - intros s Hp H0 Hlen.
    destruct (refill_cases Buffer s Hp)
      as [[Hne _]|[(_ & _ & E)|(_ & Hle & _)]]; [lia|exact E|lia].
  - intros s Hp Hlen. unfold literal.
    destruct (Py.getitem Buffer (InputPosition s)) as [b|] eqn:G;
      [|reflexivity].
    pose proof (getitem_Some_lt Buffer (InputPosition s) b Hp G). lia.
  - intros s Hp Hlen.
    destruct (read_match_word_cases Buffer s Hp) as [[_ E]|(Hle & _)];
      [exact E|lia].
  - intros s Hp Hlen.
    assert (G : Py.getitem Buffer (InputPosition s) = None).
    { destruct (Py.getitem Buffer (InputPosition s)) as [b|] eqn:G;
        [|reflexivity].
      pose proof (getitem_Some_lt Buffer (InputPosition s) b Hp G). lia. }
    split.
    + intros H0. unfold length_nibble. rewrite H0, G. reflexivity.
    + unfold length_escape. cbn [Z.eqb Pos.eqb]. rewrite G. reflexivity.
  - intros s off n Hneg. cbn [copy_loop]. unfold copy_byte.
    destruct (OutputPosition s - off <? 0) eqn:N; [reflexivity|lia].
  - intros s Hceil. split.
    + intros b G. unfold literal, is_valid_write_request. rewrite G.
      destruct (OutputPosition s <? 2 * 1024 * 1024 * 1024) eqn:V;
        [lia|reflexivity].
    + intros off n Hs. cbn [copy_loop].
      destruct (copy_byte_cases Buffer off s Hs)
        as [[_ E]|[[_ E]|(x & _ & _ & [[_ E]|[Hlt _]])]];
        try (rewrite E; cbn [bind]; eexists; split; reflexivity).
      lia.
Qed.

(** C4: a match that points before the start of the output.  When a
    pass of a run reads a match word whose offset, (MatchBytes div 8) +
    1, is greater than the length of the output so far, the pass leaves
    the loop with [break] and the function returns the output exactly as
    it was when the pass began: the match writes nothing, and nothing is
    raised. *)
Theorem offset_beyond_output_stops
  (Buffer : list byte) (s : state) (MatchBytes : Z) (e : state) :
  reachable Buffer s -> enters_match Buffer s MatchBytes e ->
  Py.len (BytesIO.value (OutputObject s)) < MatchBytes / 8 + 1 ->
  (exists s',
     iteration Buffer s = Break s' /\
     BytesIO.value (OutputObject s') = BytesIO.value (OutputObject s)) /\
  LZ77DecompressBuffer Buffer =
  Some (inr (BytesIO.value (OutputObject s))).
Proof.
  intros Hr Hm Hfar.
  pose proof (reachable_at_head Buffer s Hr) as Hs.
  destruct (enters_match_facts Buffer s MatchBytes e Hs Hm)
    as ([He _ _] & H6 & _ & _ & Ho & Hop & _ & Hit).
  destruct Hs as [[_ Hout _] _ _].
  assert (Hb : exists s',
             iteration Buffer s = Break s' /\
             BytesIO.value (OutputObject s') =
             BytesIO.value (OutputObject s)).
  { rewrite Hit. unfold match_body.
    pose proof (match_length_outcome Buffer MatchBytes e He H6) as L.
    destruct (match_length Buffer MatchBytes e) as [[n s1]|s1| |];
      cbn in L |- *; try contradiction.
    - destruct L as (Hn & _ & _ & Ho1 & Hop1 & _).
      destruct (Z.to_nat n) as [|k] eqn:K; [lia|].
      cbn [copy_loop]. unfold copy_byte.
      destruct (OutputPosition s1 - (MatchBytes / 8 + 1) <? 0) eqn:N;
        [|lia].
      cbn. exists s1. split; [reflexivity|congruence].
    - destruct L as (_ & _ & Ho1 & _).
      exists s1. split; [reflexivity|congruence]. }
  split; [exact Hb|].
  destruct Hb as (s' & E & <-). apply (break_result Buffer s s' Hr E).
Qed.

Lemma offset_beyond_output_stops_witness :
  LZ77DecompressBuffer far_match = Some (inr [x41]).
Proof.
  assert (Hr : reachable far_match far_match_head)
    by (apply (reachable_next _ initial_state); [constructor|reflexivity]).
  assert (Hm : enters_match far_match far_match_head 8 far_match_entry)
    by (exists far_match_head, (set_BufferedFlagCount 30 far_match_head);
        repeat split; discriminate).
  assert (Hfar : Py.len (BytesIO.value (OutputObject far_match_head))
                 < 8 / 8 + 1) by (cbn; lia).
  exact (proj2 (offset_beyond_output_stops far_match far_match_head 8
                  far_match_entry Hr Hm Hfar)).
Defined.

(** C5: the output grows at its end, and copies read behind it.  At the
    head of every pass of a run the length of the output equals
    OutputPosition.  In a pass that copies a match, the offset is at
    least 1, and in every state [c] the copy loop passes through the
    length of the output still equals OutputPosition; the next byte is
    read at OutputPosition - MatchOffset, which is below OutputPosition,
    and is appended at OutputPosition, which then grows by one; where
    the read position would be negative the loop sets bogus_data and
    nothing is written.  A copy that stays below 2 GiB and starts
    with at least MatchOffset bytes of output appends MatchLength bytes,
    each equal to the byte MatchOffset places before it in the result,
    also where that byte was written by the same copy (MatchLength may
    exceed MatchOffset). *)
Theorem copies_read_behind_the_cursor (Buffer : list byte) (s : state) :
  reachable Buffer s ->
  Py.len (BytesIO.value (OutputObject s)) = OutputPosition s /\
  forall MatchBytes e MatchLength e',
    enters_match Buffer s MatchBytes e ->
    match_length Buffer MatchBytes e = Normal (MatchLength, e') ->
    let MatchOffset := MatchBytes / 8 + 1 in
    1 <= MatchOffset /\
    (forall k bogus_data c,
       copy_loop k MatchOffset e' = Normal (bogus_data, c) ->
       let v := BytesIO.value (OutputObject c) in
       let p := OutputPosition c in
       Py.len v = p /\
       (p - MatchOffset < 0 ->
        copy_byte MatchOffset c = Normal (true, c)) /\
       (0 <= p - MatchOffset ->
        p - MatchOffset < p /\
        exists x,
          nth_error v (Z.to_nat (p - MatchOffset)) = Some x /\
          (p < 2 * 1024 * 1024 * 1024 ->
           copy_byte MatchOffset c =
           Normal (false,
                   set_OutputPosition (p + 1)
                     (set_OutputObject (BytesIO.mk (v ++ [x]) (p + 1))
                        c))))) /\
    (MatchOffset <= OutputPosition e' ->
     OutputPosition e' + MatchLength <= 2 * 1024 * 1024 * 1024 ->
     exists c,
       copy_loop (Z.to_nat MatchLength) MatchOffset e' =
       Normal (false, c) /\
       let v := BytesIO.value (OutputObject e') in
       let v' := BytesIO.value (OutputObject c) in
       length v' = (length v + Z.to_nat MatchLength)%nat /\
       firstn (length v) v' = v /\
       forall i : nat,
         (length v <= i < length v')%nat ->
         nth_error v' i = nth_error v' (i - Z.to_nat MatchOffset)).
Proof.
  intros Hr. pose proof (reachable_at_head Buffer s Hr) as Hs.
  split; [apply Hs|].
  intros W e n e' Hm Hl off.
  destruct (enters_match_facts Buffer s W e Hs Hm)
    as ([He _ _] & H6 & _ & HW & _).
  pose proof (match_length_outcome Buffer W e He H6) as L.
  rewrite Hl in L. destruct L as (Hn & He' & _).
  assert (Hoff : 1 <= off).
  { subst off. pose proof (Z.div_pos W 8 ltac:(lia) ltac:(lia)). lia. }
  split; [exact Hoff|]. split.
  - intros k b c Hk.
    pose proof (copy_loop_outcome Buffer k off e' He') as C.
    rewrite Hk in C. destruct C as (Hc & _).
    cbv zeta. split; [apply Hc|]. split.
    + intros Hneg. unfold copy_byte.
      destruct (OutputPosition c - off <? 0) eqn:N; [reflexivity|lia].
    + intros Hpos. split; [lia|].
      destruct (copy_byte_cases Buffer off c Hc)
        as [[Hneg _]|[[Hle _]|(x & _ & Hx & Hcase)]]; try lia.
      exists x. split; [exact Hx|]. intros Hlt.
      destruct Hcase as [[Hge _]|[_ E]]; [lia|exact E].
  - intros Hfit Hceil.
    destruct (copy_loop_overlap Buffer (Z.to_nat n) off e' He'
                ltac:(lia) ltac:(lia))
      as (c & Hrun & _ & Hlen & Hpre & Hnth).
    exists c. split; [exact Hrun|]. cbv zeta.
    split; [exact Hlen|]. split; [exact Hpre|].
    intros i Hi. apply Hnth. lia.
Qed.

Lemma copies_read_behind_the_cursor_witness :
  exists c,
    copy_loop 11 1 (set_InputPosition 8
                      (set_LastLengthHalfByte 7 first_match_entry)) =
    Normal (false, c) /\
    BytesIO.value (OutputObject c) = repeat x41 12.
Proof.
  assert (Hr : reachable three_matches first_match_head)
    by (apply (reachable_next _ initial_state); [constructor|reflexivity]).
  assert (Hm : enters_match three_matches first_match_head 7
                 first_match_entry)
    by (exists first_match_head,
               (set_BufferedFlagCount 30 first_match_head);
        repeat split; discriminate).
  destruct (copies_read_behind_the_cursor three_matches first_match_head
              Hr) as (_ & H).
  destruct (H 7 first_match_entry 11
              (set_InputPosition 8
                 (set_LastLengthHalfByte 7 first_match_entry))
              Hm eq_refl) as (_ & _ & Hcopy).
  destruct (Hcopy ltac:(vm_compute; discriminate)
              ltac:(vm_compute; discriminate)) as (c & Hrun & _).
  exists c. split; [exact Hrun|].
  vm_compute in Hrun. injection Hrun as <-. reflexivity.
Defined.

(** C6: a flag word of 32 literals.  For every buffer of 36 bytes whose
    first four are zero, the function returns the other 32 bytes in
    their order; the loop is left with [break] on the flag word that is
    missing behind them, with all 36 bytes read. *)
Theorem thirty_two_literals (Buffer : list byte) :
  Py.len Buffer = 36 ->
  Py.slice Buffer 0 4 = [x00; x00; x00; x00] ->
  LZ77DecompressBuffer Buffer = Some (inr (Py.slice Buffer 4 36)) /\
  exists s',
    while_True Buffer (S (length Buffer)) initial_state = Some (Broke s') /\
    InputPosition s' = 36 /\
    BytesIO.value (OutputObject s') = Py.slice Buffer 4 36.
Proof.
  intros Hlen Hz.
  assert (Hn : length Buffer = 36%nat) by (unfold Py.len in Hlen; lia).
  clear Hlen.
  do 36 (destruct Buffer as [|? Buffer]; [discriminate Hn|];
         cbn [length] in Hn; apply Nat.succ_inj in Hn).
  destruct Buffer; [|discriminate Hn]. clear Hn.
  vm_compute in Hz. injection Hz as -> -> -> ->.
  split; [vm_compute; reflexivity|].
  eexists. split; [vm_compute; reflexivity|].
  split; vm_compute; reflexivity.
Qed.

Lemma thirty_two_literals_witness :
  LZ77DecompressBuffer all_literals = Some (inr (Py.slice all_literals 4 36)).
Proof.
  exact (proj1 (thirty_two_literals all_literals eq_refl eq_refl)).
Defined.

Lemma yield_page_cases (decompressed_data : list byte) :
  let n := Py.len decompressed_data in
  (n < 1024 -> yield_page decompressed_data = None) /\
  (1024 <= n < 4096 ->
   yield_page decompressed_data =
   Some (decompressed_data ++ repeat x00 (Z.to_nat (4096 - n)))) /\
  (4096 < n ->
   yield_page decompressed_data =
   Some (firstn (Z.to_nat 4096) decompressed_data)) /\
  (n = 4096 -> yield_page decompressed_data = Some decompressed_data).
Proof.
  intros n. unfold yield_page, DECOMPRESSED_DATA_SIZE_MIN, PAGE_SIZE.
  fold n. pose proof (len_nonneg decompressed_data) as H0. fold n in H0.
  repeat split.
  - intros H. destruct (n >=? 1024) eqn:E; [lia|reflexivity].
  - intros H. destruct (n >=? 1024) eqn:E; [|lia].
    destruct (n >? 4096) eqn:Egt; [lia|].
    destruct (n <? 4096) eqn:Elt; [reflexivity|lia].
  - intros H. destruct (n >=? 1024) eqn:E; [|lia].
    destruct (n >? 4096) eqn:Egt; [|lia].
    pose proof (slice_in_range decompressed_data 0 4096 ltac:(lia)
                  ltac:(lia) ltac:(fold n; lia)) as L.
    change (0 + 4096) with 4096 in L. rewrite L. reflexivity.
  - intros H. destruct (n >=? 1024) eqn:E; [|lia].
    destruct (n >? 4096) eqn:Egt; [lia|].
    destruct (n <? 4096) eqn:Elt; [lia|reflexivity].
Qed.

Lemma yield_page_length (decompressed_data page : list byte) :
  yield_page decompressed_data = Some page -> Py.len page = 4096.
Proof.
  destruct (yield_page_cases decompressed_data) as (C1 & C2 & C3 & C4).
  pose proof (len_nonneg decompressed_data) as H0. intros Y.
  destruct (Z_lt_dec (Py.len decompressed_data) 1024) as [H|H].
  - rewrite (C1 H) in Y. discriminate.
  - destruct (Z_lt_dec (Py.len decompressed_data) 4096) as [H1|H1].
    + rewrite (C2 ltac:(lia)) in Y.
      assert (E : page = decompressed_data ++
                  repeat x00 (Z.to_nat (4096 - Py.len decompressed_data)))
        by congruence.
      rewrite E, len_app, len_repeat. lia.
    + destruct (Z.eq_dec (Py.len decompressed_data) 4096) as [H2|H2].
      * rewrite (C4 H2) in Y. congruence.
      * rewrite (C3 ltac:(lia)) in Y.
        assert (E : page = firstn (Z.to_nat 4096) decompressed_data)
          by congruence.
        rewrite E. unfold Py.len in *. rewrite length_firstn. lia.
Qed.

(** C7: what becomes of a decompressed chunk.  A chunk of fewer than
    1024 bytes yields nothing; one of 1024 to 4095 bytes is yielded with
    zero bytes appended up to 4096; one of more than 4096 bytes is
    yielded cut to its first 4096 bytes; one of exactly 4096 bytes is
    yielded as it is.  Every page yielded, for whatever chunks in
    whatever order, has 4096 bytes. *)
Theorem pages_have_4096_bytes (decompressed_data : list byte) :
  let n := Py.len decompressed_data in
  (n < 1024 -> yield_page decompressed_data = None) /\
  (1024 <= n < 4096 ->
   yield_page decompressed_data =
   Some (decompressed_data ++ repeat x00 (Z.to_nat (4096 - n)))) /\
  (4096 < n ->
   yield_page decompressed_data =
   Some (firstn (Z.to_nat 4096) decompressed_data)) /\
  (n = 4096 -> yield_page decompressed_data = Some decompressed_data) /\
  (forall page,
     yield_page decompressed_data = Some page -> Py.len page = 4096) /\
  (forall results page,
     In page (yielded_pages results) -> Py.len page = 4096).
Proof.
  intros n.
  destruct (yield_page_cases decompressed_data) as (C1 & C2 & C3 & C4).
  fold n in C1, C2, C3, C4.
  split; [exact C1|]. split; [exact C2|]. split; [exact C3|].
  split; [exact C4|]. split.
  - intros page. apply yield_page_length.
  - intros results page. unfold yielded_pages. rewrite in_flat_map.
    intros (d & _ & Hd).
    destruct (yield_page d) as [p|] eqn:Y; [|contradiction].
    destruct Hd as [<-|[]]. apply (yield_page_length d p Y).
Qed.

(** ** The scan *)

Lemma scan_loop_done (Buffer : list byte) (pos : Z) (acc : list (list byte)) :
  Py.len Buffer <= pos -> scan_loop Buffer pos acc = acc.
Proof.
  intros H. rewrite scan_loop_equation_1.
  destruct (Z_lt_dec pos (Py.len Buffer)); [lia|reflexivity].
Qed.

Lemma scan_loop_step (Buffer : list byte) (pos : Z) (acc : list (list byte)) :
  pos < Py.len Buffer ->
  scan_loop Buffer pos acc =
  scan_loop Buffer (pos + 16)
    (if negb (Py.startswith (Py.slice Buffer pos (pos + 4096)) null_bytes_12)
     then acc ++ [Py.slice Buffer pos (pos + 4096)] else acc).
Proof.
  intros H. rewrite scan_loop_equation_1.
  destruct (Z_lt_dec pos (Py.len Buffer)); [reflexivity|lia].
Qed.

Lemma window_count_spec (Buffer : list byte) (k : nat) :
  (k < window_count Buffer)%nat <-> 16 * Z.of_nat k < Py.len Buffer.
Proof.
  unfold window_count. pose proof (len_nonneg Buffer).
  pose proof (Z.div_mod (Py.len Buffer + 15) 16 ltac:(lia)).
  pose proof (Z.mod_pos_bound (Py.len Buffer + 15) 16 ltac:(lia)).
  lia.
Qed.

Lemma slice_is_window (Buffer : list byte) (k : nat) :
  16 * Z.of_nat k < Py.len Buffer ->
  Py.slice Buffer (16 * Z.of_nat k) (16 * Z.of_nat k + 4096) =
  window_at Buffer k.
Proof.
  intros H. rewrite slice_nonneg by lia. unfold window_at.
  f_equal; [lia|]. f_equal. lia.
Qed.

Lemma window_at_len (Buffer : list byte) (k : nat) :
  16 * Z.of_nat k < Py.len Buffer ->
  Py.len (window_at Buffer k) =
  Z.min 4096 (Py.len Buffer - 16 * Z.of_nat k).
Proof.
  intros H. unfold window_at, Py.len in *.
  rewrite length_firstn, length_skipn. lia.
Qed.

Lemma scan_loop_windows (Buffer : list byte) (n k : nat)
  (acc : list (list byte)) :
  (k + n = window_count Buffer)%nat ->
  scan_loop Buffer (16 * Z.of_nat k) acc =
  acc ++ filter (fun w => negb (Py.startswith w null_bytes_12))
                (map (window_at Buffer) (seq k n)).
Proof.
  revert k acc. induction n as [|n IH]; intros k acc Hk.
  - rewrite scan_loop_done; [cbn; rewrite app_nil_r; reflexivity|].
    pose proof (window_count_spec Buffer k). lia.
  - assert (Hlt : 16 * Z.of_nat k < Py.len Buffer)
      by (apply window_count_spec; lia).
    rewrite scan_loop_step by assumption.
    rewrite (slice_is_window Buffer k Hlt).
    replace (16 * Z.of_nat k + 16) with (16 * Z.of_nat (S k)) by lia.
    rewrite IH by lia. cbn [seq map filter].
    destruct (negb (Py.startswith (window_at Buffer k) null_bytes_12)).
    + rewrite <- app_assoc. reflexivity.
    + reflexivity.
Qed.

Lemma startswith_spec (l p : list byte) :
  Py.startswith l p = true <-> exists rest, l = p ++ rest.
Proof.
  revert l. induction p as [|y p IH]; intros l; destruct l as [|x l]; cbn.
  - split; [intros _; exists []; reflexivity|reflexivity].
  - split; [intros _; exists (x :: l); reflexivity|reflexivity].
  - split; [discriminate|intros (rest & H); discriminate].
  - rewrite andb_true_iff, IH. split.
    +
      intros (E & rest & ->). exists rest.
      apply Byte.byte_dec_bl in E. subst. reflexivity.
    + intros (rest & H). injection H as -> ->.
      split; [apply Byte.byte_dec_lb; reflexivity|exists rest; reflexivity].
Qed.

(** C8: the windows of a scan.  There is one candidate window for each
    offset [16 * k] below the length of the buffer, made of the next
    [min(4096, bytes remaining)] bytes; the windows handed on for
    decompression are, in the order of their offsets, exactly the
    candidates that do not start with 12 zero bytes. *)
Theorem scan_skips_zero_windows (Buffer : list byte) :
  compressed_data_to_process Buffer =
  filter (fun w => negb (Py.startswith w null_bytes_12))
         (candidate_windows Buffer) /\
  (forall k : nat,
     16 * Z.of_nat k < Py.len Buffer <->
     exists w, nth_error (candidate_windows Buffer) k = Some w) /\
  (forall k : nat,
     16 * Z.of_nat k < Py.len Buffer ->
     nth_error (candidate_windows Buffer) k =
       Some (Py.slice Buffer (16 * Z.of_nat k) (16 * Z.of_nat k + 4096)) /\
     Py.len (Py.slice Buffer (16 * Z.of_nat k) (16 * Z.of_nat k + 4096)) =
       Z.min 4096 (Py.len Buffer - 16 * Z.of_nat k)) /\
  (forall w,
     Py.startswith w null_bytes_12 = true <->
     exists rest, w = repeat x00 12 ++ rest) /\
  (forall w,
     In w (compressed_data_to_process Buffer) <->
     In w (candidate_windows Buffer) /\
     ~ exists rest, w = repeat x00 12 ++ rest).
Proof.
  assert (Hscan : compressed_data_to_process Buffer =
                  filter (fun w => negb (Py.startswith w null_bytes_12))
                         (candidate_windows Buffer)).
  { unfold compressed_data_to_process, candidate_windows.
    change 0 with (16 * Z.of_nat 0).
    rewrite (scan_loop_windows Buffer (window_count Buffer) 0 [])
      by reflexivity.
    reflexivity. }
  assert (Hnth : forall k : nat,
             16 * Z.of_nat k < Py.len Buffer ->
             nth_error (candidate_windows Buffer) k =
             Some (window_at Buffer k)).
  { intros k Hk. unfold candidate_windows.
    apply window_count_spec in Hk.
    rewrite nth_error_map, nth_error_seq.
    destruct (Nat.ltb_spec k (window_count Buffer)); [reflexivity|lia]. }
  split; [exact Hscan|]. split; [|split; [|split]].
  - intros k. split.
    + intros Hk. eexists. apply Hnth. exact Hk.
    + intros (w & Hw). apply window_count_spec.
      assert (k < length (candidate_windows Buffer))%nat
        by (apply nth_error_Some; congruence).
      unfold candidate_windows in H.
      rewrite length_map, length_seq in H. exact H.
  - intros k Hk. rewrite (slice_is_window Buffer k Hk).
    split; [apply Hnth; exact Hk|apply window_at_len; exact Hk].
  - intros w. apply startswith_spec.
  - intros w. rewrite Hscan, filter_In, negb_true_iff.
    rewrite <- (startswith_spec w null_bytes_12).
    destruct (Py.startswith w null_bytes_12); intuition congruence.
Qed.

(** C9: the loop ends.  For every buffer [len(Buffer) + 1] passes are
    enough for the loop to be left.  A pass of a run that does not leave
    the loop moves the input position forward: a new flag word takes 4
    bytes, a literal 1 byte, a match at least the 2 bytes of its match
    word.  The length of a match is at most 65535 - 22 + 15 + 7 + 3 =
    65538, and the copy loop, which runs once for each value of
    [range(0, MatchLength)], appends at most that many bytes. *)
Theorem decode_loop_terminates (Buffer : list byte) :
  (exists r,
     while_True Buffer (S (length Buffer)) initial_state = Some r) /\
  (forall s s',
     reachable Buffer s -> iteration Buffer s = Normal s' ->
     InputPosition s < InputPosition s' <= Py.len Buffer) /\
  (forall s s1,
     BufferedFlagCount s = 0 -> refill Buffer s = Normal s1 ->
     InputPosition s1 = InputPosition s + 4) /\
  (forall s s',
     literal Buffer s = Normal s' ->
     InputPosition s' = InputPosition s + 1) /\
  (forall s MatchBytes e,
     reachable Buffer s -> enters_match Buffer s MatchBytes e ->
     InputPosition s + 2 <= InputPosition e /\
     forall s', iteration Buffer s = Normal s' ->
                InputPosition e <= InputPosition s') /\
  (forall s MatchBytes e MatchLength e',
     reachable Buffer s -> enters_match Buffer s MatchBytes e ->
     match_length Buffer MatchBytes e = Normal (MatchLength, e') ->
     3 <= MatchLength <= 65535 - 22 + 15 + 7 + 3 /\
     65535 - 22 + 15 + 7 + 3 = 65538 /\
     exists bogus_data c ext,
       copy_loop (Z.to_nat MatchLength) (MatchBytes / 8 + 1) e' =
       Normal (bogus_data, c) /\
       BytesIO.value (OutputObject c) =
       BytesIO.value (OutputObject e') ++ ext /\
       Py.len ext <= MatchLength).
Proof.
  split; [|split; [|split; [|split; [|split]]]].
  - destruct (while_True_enough Buffer (S (length Buffer)) initial_state
                (initial_at_head Buffer)) as (r & out & Hr & _).
    { cbn [InputPosition initial_state]. unfold Py.len. lia. }
    exists r. exact Hr.
  - intros s s' Hr E.
    pose proof (iteration_outcome Buffer s
                  (reachable_at_head Buffer s Hr)) as P.
    rewrite E in P. destruct P as ([[Hin _ _] _ _] & Hlt & _). lia.
  - intros s s1 H0. unfold refill. rewrite H0. cbn [Z.eqb].
    destruct (negb _); [discriminate|].
    destruct (Py.unpack 4 _) as [x|w]; cbn [lift bind]; [discriminate|].
    intros H. injection H as <-. reflexivity.
  - intros s s'. unfold literal.
    destruct (Py.getitem Buffer (InputPosition s)); [|discriminate].
    destruct (is_valid_write_request _); [|discriminate].
    destruct (BytesIO.seek _ _) as [x|o]; cbn [lift bind]; [discriminate|].
    intros H. injection H as <-. reflexivity.
  - intros s W e Hr Hm.
    pose proof (reachable_at_head Buffer s Hr) as Hs.
    destruct (enters_match_facts Buffer s W e Hs Hm)
      as (He & H6 & H2 & _ & _ & _ & _ & Hit).
    split; [exact H2|]. intros s' E. rewrite Hit in E.
    pose proof (match_body_outcome Buffer W e He H6) as B.
    rewrite E in B. apply B.
  - intros s W e n e' Hr Hm Hl.
    pose proof (reachable_at_head Buffer s Hr) as Hs.
    destruct (enters_match_facts Buffer s W e Hs Hm)
      as ([He _ _] & H6 & _).
    pose proof (match_length_outcome Buffer W e He H6) as L.
    rewrite Hl in L. destruct L as (Hn & He' & _).
    split; [lia|]. split; [reflexivity|].
    pose proof (copy_loop_outcome Buffer (Z.to_nat n) (W / 8 + 1) e' He')
      as C.
    destruct (copy_loop (Z.to_nat n) (W / 8 + 1) e') as [[b c]| | |];
      cbn in C; try contradiction.
    destruct C as (_ & _ & ext & Hext & Hlen & _).
    exists b, c, ext. split; [reflexivity|]. split; [exact Hext|].
    unfold Py.len. lia.
Qed.

(** C10: a remembered position is never 0.  At the head of every pass
    of a run, a remembered position that is not 0 is at least 6 and
    below the input position, so that the byte there can be read.  In a
    pass that takes the branch of a match, the position at which a
    length extension byte is read and remembered, the one behind the
    match word, is at least 6, hence not the 0 that stands for nothing
    remembered; and where a position is remembered, reading the byte
    there again succeeds. *)
Theorem remembered_position_at_least_6 (Buffer : list byte) (s : state) :
  reachable Buffer s ->
  (LastLengthHalfByte s <> 0 ->
   6 <= LastLengthHalfByte s < InputPosition s /\
   InputPosition s <= Py.len Buffer /\
   exists B, Py.getitem Buffer (LastLengthHalfByte s) = Some B) /\
  (forall MatchBytes e,
     enters_match Buffer s MatchBytes e ->
     6 <= InputPosition e /\
     (forall n e',
        LastLengthHalfByte e = 0 ->
        length_nibble Buffer e = Normal (n, e') ->
        LastLengthHalfByte e' = InputPosition e /\
        LastLengthHalfByte e' <> 0) /\
     (LastLengthHalfByte e <> 0 ->
      exists B,
        Py.getitem Buffer (LastLengthHalfByte e) = Some B /\
        length_nibble Buffer e =
        Normal (Py.int_of_byte B / 16, set_LastLengthHalfByte 0 e))).
Proof.
  intros Hr. pose proof (reachable_at_head Buffer s Hr) as Hs. split.
  - intros Hne. destruct Hs as [[Hin _ Hc] _ _].
    split; [lia|]. split; [lia|].
    apply getitem_lt_Some. lia.
  - intros W e Hm.
    destruct (enters_match_facts Buffer s W e Hs Hm)
      as ([He _ _] & H6 & _).
    split; [exact H6|]. split.
    + intros n e' H0. unfold length_nibble. rewrite H0. cbn [Z.eqb].
      destruct (Py.getitem Buffer (InputPosition e)); [|discriminate].
      intros H. injection H as _ <-. cbn. split; [reflexivity|lia].
    + intros Hne. apply cached_byte_readable; assumption.
Qed.

Lemma remembered_position_at_least_6_witness :
  6 <= LastLengthHalfByte second_match_head < InputPosition second_match_head /\
  exists B,
    Py.getitem three_matches (LastLengthHalfByte second_match_head) = Some B.
Proof.
  assert (Hr : reachable three_matches second_match_head).
  { apply (reachable_next _ first_match_head); [|reflexivity].
    apply (reachable_next _ initial_state); [constructor|reflexivity]. }
  destruct (remembered_position_at_least_6 three_matches
              second_match_head Hr) as (H & _).
  destruct (H ltac:(discriminate)) as (H6 & _ & HB).
  split; [exact H6|exact HB].
Defined.

(** ** Further properties of the decoder *)

#[local] Arguments Z.mul : simpl never.

(** X1: a buffer of fewer than four bytes has no flag word; the decoder
    returns the empty output for it. *)
Theorem short_buffer_gives_no_output (Buffer : list byte) :
  Py.len Buffer < 4 ->
  LZ77DecompressBuffer Buffer = Some (inr []).
Proof.
  intros H.
  apply (break_result Buffer initial_state initial_state
           (reachable_initial Buffer)).
  unfold iteration.
  destruct (refill_cases Buffer initial_state ltac:(cbn; lia))
    as [[Hne _]|[(_ & _ & E)|(_ & Hle & _)]].
  - cbn in Hne. lia.
  - rewrite E. reflexivity.
  - cbn in Hle. lia.
Qed.

Lemma short_buffer_gives_no_output_witness :
  LZ77DecompressBuffer [x41; x42; x43] = Some (inr []).
Proof.
  apply (short_buffer_gives_no_output [x41; x42; x43]). cbn. lia.
Defined.

Section Extension.

Variable Buffer : list byte.

Lemma while_True_extends (fuel : nat) (s : state) :
  at_head Buffer s ->
  Py.len Buffer - InputPosition s < Z.of_nat fuel ->
  exists r ext,
    while_True Buffer fuel s = Some r /\
    finish r = inr (BytesIO.value (OutputObject s) ++ ext).
Proof.
  revert s. induction fuel as [|fuel IH]; intros s Hs Hf.
  - destruct Hs as [[Hin _ _] _ _]. lia.
  - cbn [while_True].
    pose proof (iteration_outcome Buffer s Hs) as P.
    destruct (iteration Buffer s) as [s'|s'|v|e]; cbn in P.
    + destruct P as (Hs' & Hlt & ext & Hext).
      destruct (IH s' Hs' ltac:(lia)) as (r & ext' & Hr & Hfin).
      exists r, (ext ++ ext'). split; [assumption|].
      rewrite Hfin, Hext, app_assoc. reflexivity.
    + destruct P as (ext & Hext). exists (Broke s'), ext.
      split; [reflexivity|]. unfold finish, BytesIO.getvalue.
      rewrite Hext. reflexivity.
    + exists (Returned v), []. split; [reflexivity|].
      unfold finish. rewrite app_nil_r, P. reflexivity.
    + contradiction.
Qed.

Lemma reachable_result (s : state) :
  reachable Buffer s ->
  LZ77DecompressBuffer Buffer =
  option_map finish (while_True Buffer (S (length Buffer)) initial_state) /\
  exists fuel : nat,
    Py.len Buffer - InputPosition s < Z.of_nat fuel /\
    while_True Buffer (S (length Buffer)) initial_state =
    while_True Buffer fuel s.
Proof.
  intros Hr. split; [reflexivity|].
  destruct (reachable_run Buffer s Hr) as (k & Hk & Hrun).
  pose proof (reachable_at_head Buffer s Hr) as [[Hin _ _] _ _].
  exists (S (length Buffer) - k)%nat. unfold Py.len in *. split; [lia|].
  rewrite <- Hrun. f_equal. lia.
Qed.

Lemma reachable_output_is_prefix (s : state) :
  reachable Buffer s ->
  exists ext,
    LZ77DecompressBuffer Buffer =
    Some (inr (BytesIO.value (OutputObject s) ++ ext)).
Proof.
  intros Hr. destruct (reachable_result s Hr) as (-> & fuel & Hf & ->).
  destruct (while_True_extends fuel s (reachable_at_head Buffer s Hr) Hf)
    as (r & ext & -> & Hfin).
  exists ext. cbn. rewrite Hfin. reflexivity.
Qed.

End Extension.

(** X2: the output is only ever extended.  What the output holds at the
    head of any pass of a run is a prefix of what the function returns:
    no pass removes or rewrites a byte written before it. *)
Theorem output_is_only_extended (Buffer : list byte) (s : state) :
  reachable Buffer s ->
  exists ext,
    LZ77DecompressBuffer Buffer =
    Some (inr (BytesIO.value (OutputObject s) ++ ext)).
Proof.
  apply reachable_output_is_prefix.
Qed.

Lemma output_is_only_extended_witness :
  exists ext,
    LZ77DecompressBuffer three_matches =
    Some (inr (BytesIO.value (OutputObject second_match_head) ++ ext)).
Proof.
  apply (output_is_only_extended three_matches second_match_head).
  apply (reachable_next three_matches first_match_head);
    [|vm_compute; reflexivity].
  apply (reachable_next three_matches initial_state);
    [|vm_compute; reflexivity].
  apply reachable_initial.
Defined.

(** ** How much a run can write *)

Section Bounds.

Variable Buffer : list byte.

Lemma length_escape_cost (n : Z) (e : state) :
  consistent Buffer e -> 0 <= n <= 15 ->
  match length_escape Buffer n e with
  | Normal (m, s') =>
      m + 10 <= 13108 * (InputPosition s' - InputPosition e + 2)
  | Break _ | Return _ | Raise _ => True
  end.
Proof.
  intros [Hin Hout Hc] Hn. unfold length_escape.
  destruct (n =? 15) eqn:E.
  - destruct (Py.getitem Buffer (InputPosition e)) as [b|] eqn:G;
      [|exact I].
    pose proof (int_of_byte_range b).
    cbv zeta. cbn [InputPosition set_InputPosition].
    destruct (Py.int_of_byte b =? 255) eqn:E255.
    + destruct (Py.len (Py.slice Buffer (InputPosition e + 1)
                          (InputPosition e + 1 + 2)) =? 2) eqn:L;
        cbn [negb]; [|exact I].
      apply Z.eqb_eq in L. rewrite (unpack_ok 2 _ L). cbn [lift bind].
      pose proof (le_value_bound (Py.slice Buffer (InputPosition e + 1)
                    (InputPosition e + 1 + 2))) as B.
      rewrite L in B. change (256 ^ 2) with 65536 in B.
      destruct (_ <? 15 + 7) eqn:L22; [exact I|]. fields. lia.
    + fields. lia.
  - lia.
Qed.

Lemma match_length_cost (MatchBytes : Z) (e : state) :
  consistent Buffer e -> 6 <= InputPosition e ->
  match match_length Buffer MatchBytes e with
  | Normal (n, s') =>
      n <= 13108 * (InputPosition s' - InputPosition e + 2)
  | Break _ | Return _ | Raise _ => True
  end.
Proof.
  intros He H6. unfold match_length.
  pose proof (Z.mod_pos_bound MatchBytes 8 ltac:(lia)) as M.
  destruct (MatchBytes mod 8 =? 7) eqn:E.
  - pose proof (length_nibble_outcome Buffer e He H6) as N.
    destruct (length_nibble Buffer e) as [[n s1]|s1| |];
      unfold length_outcome in N; cbn [bind];
      try contradiction; [|exact I].
    destruct N as (Hn & Hs1 & Hp1 & _).
    pose proof (length_escape_cost n s1 Hs1 Hn) as X.
    destruct (length_escape Buffer n s1) as [[m s2]|s2| |]; cbn [bind];
      try exact I.
    lia.
  - lia.
Qed.

Lemma copy_loop_ceiling (n : nat) (MatchOffset : Z) (s : state) :
  consistent Buffer s ->
  OutputPosition s <= 2 * 1024 * 1024 * 1024 ->
  match copy_loop n MatchOffset s with
  | Normal (_, s') =>
      OutputPosition s' <= 2 * 1024 * 1024 * 1024 /\
      OutputPosition s' <= OutputPosition s + Z.of_nat n
  | Break _ | Return _ | Raise _ => True
  end.
Proof.
  revert s. induction n as [|n IH]; intros s Hs Hle.
  - cbn. lia.
  - cbn [copy_loop]. pose proof Hs as [Hin Hout Hc].
    destruct (copy_byte_cases Buffer MatchOffset s Hs)
      as [[_ E]|[[_ E]|(x & Hr & Hx & [[_ E]|[Hlt E]])]];
      rewrite E; cbn [bind]; try (cbn; lia).
    set (s1 := set_OutputPosition _ _).
    assert (Hs1 : consistent Buffer s1).
    { constructor; cbn; try assumption. rewrite len_app.
      change (Py.len [x]) with 1. lia. }
    specialize (IH s1 Hs1 ltac:(cbn; lia)).
    destruct (copy_loop n MatchOffset s1) as [[b s2]| | |]; try exact I.
    cbn in IH. lia.
Qed.

Lemma iteration_bounds (s : state) :
  at_head Buffer s -> within_bounds s ->
  match iteration Buffer s with
  | Normal s' | Break s' => consistent Buffer s' /\ within_bounds s'
  | Return v => v = BytesIO.value (OutputObject s)
  | Raise _ => False
  end.
Proof.
  intros Hs [Hceil Hcost]. pose proof Hs as [Hcs _ _].
  pose proof (refill_outcome Buffer s Hs) as R. unfold iteration.
  destruct (refill Buffer s) as [s1|s1| |]; cbn [bind] in *;
    try contradiction.
  2:{ subst s1. split; [assumption|split; assumption]. }
  destruct R as (Hs1 & Hcount & H4 & Hp & Ho & Hl).
  assert (Hop : OutputPosition s1 = OutputPosition s).
  { destruct Hs1 as [_ Hout1 _]. destruct Hcs as [_ Hout _]. congruence. }
  rewrite (take_flag_cases s1) by lia. cbn [bind].
  set (s2 := set_BufferedFlagCount (BufferedFlagCount s1 - 1) s1).
  assert (Hs2 : consistent Buffer s2)
    by (destruct Hs1; constructor; cbn; assumption).
  assert (Ep : InputPosition s2 = InputPosition s1) by reflexivity.
  assert (Eo : OutputPosition s2 = OutputPosition s1) by reflexivity.
  assert (Eoo : OutputObject s2 = OutputObject s1) by reflexivity.
  clearbody s2.
  assert (Hb2 : within_bounds s2) by (split; lia).
  pose proof Hs2 as [Hin2 Hout2 Hc2].
  pose proof (len_nonneg (BytesIO.value (OutputObject s2))) as Hv.
  destruct (Z.land _ _ =? 0).
  - destruct (literal_cases Buffer s2 ltac:(lia) ltac:(lia))
      as [[_ E]|(b & Hb & Hlt & [[_ E]|[Hw E]])].
    + rewrite E. split; assumption.
    + rewrite E. split; assumption.
    + rewrite E. split.
      * constructor; fields; [lia| |lia].
        rewrite <- Hout2 at 1. rewrite write_at_end. fields.
        rewrite len_app, Hout2. reflexivity.
      * split; fields; lia.
  - unfold process_match.
    destruct (InputPosition s2 =? Py.len Buffer) eqn:Elen.
    { unfold BytesIO.getvalue. rewrite Eoo, Ho. reflexivity. }
    destruct (read_match_word_cases Buffer s2 ltac:(lia))
      as [[_ M]|(Hle & W & _ & M)]; rewrite M; cbn [bind].
    { split; assumption. }
    set (e := set_InputPosition (InputPosition s2 + 2) s2).
    assert (He : consistent Buffer e).
    { constructor; unfold e; fields; [lia|assumption|lia]. }
    assert (Epe : InputPosition e = InputPosition s2 + 2) by reflexivity.
    assert (Eoe : OutputPosition e = OutputPosition s2) by reflexivity.
    clearbody e.
    unfold match_body.
    pose proof (match_length_outcome Buffer W e He ltac:(lia)) as L.
    pose proof (match_length_cost W e He ltac:(lia)) as C.
    destruct (match_length Buffer W e) as [[n s3]|s3| |];
      unfold length_outcome in L; cbn [bind]; try contradiction.
    + destruct L as (Hn & Hs3 & Hp3 & Ko & Kop & _).
      pose proof (copy_loop_outcome Buffer (Z.to_nat n) (W / 8 + 1) s3 Hs3)
        as Q.
      pose proof (copy_loop_ceiling (Z.to_nat n) (W / 8 + 1) s3 Hs3
                    ltac:(lia)) as U.
      destruct (copy_loop (Z.to_nat n) (W / 8 + 1) s3) as [[b s4]| | |];
        unfold copy_outcome in Q; cbn [bind]; try contradiction.
      destruct Q as (Hs4 & (Kp & _) & _).
      assert (B4 : within_bounds s4) by (split; lia).
      destruct b; split; assumption.
    + destruct L as (Hs3 & Hp3 & Ko & Kop & _).
      split; [assumption|]. split; lia.
Qed.

Lemma while_True_bounds (fuel : nat) (s : state) (r : stop)
  (out : list byte) :
  at_head Buffer s -> within_bounds s ->
  while_True Buffer fuel s = Some r -> finish r = inr out ->
  Py.len out <= 2 * 1024 * 1024 * 1024 /\
  Py.len out <= 13108 * Py.len Buffer.
Proof.
  revert s. induction fuel as [|fuel IH]; intros s Hs Hb Hrun Hfin;
    [discriminate|].
  cbn [while_True] in Hrun.
  pose proof (iteration_outcome Buffer s Hs) as P.
  pose proof (iteration_bounds s Hs Hb) as Q.
  destruct (iteration Buffer s) as [s'|s'|v|e]; cbn in P, Q.
  - destruct P as (Hs' & _). destruct Q as (_ & Hb').
    apply (IH s'); assumption.
  - injection Hrun as <-. cbn in Hfin. injection Hfin as <-.
    destruct Q as ([Hin Hout _] & Hceil & Hcost).
    unfold BytesIO.getvalue. rewrite Hout. lia.
  - injection Hrun as <-. cbn in Hfin. injection Hfin as <-. subst v.
    destruct Hs as [[Hin Hout _] _ _]. destruct Hb as [Hceil Hcost].
    rewrite Hout. lia.
  - contradiction.
Qed.

Lemma result_bounds :
  exists out,
    LZ77DecompressBuffer Buffer = Some (inr out) /\
    Py.len out <= 2 * 1024 * 1024 * 1024 /\
    Py.len out <= 13108 * Py.len Buffer.
Proof.
  destruct (while_True_enough Buffer (S (length Buffer)) initial_state
              (initial_at_head Buffer) ltac:(unfold Py.len; cbn; lia))
    as (r & out & Hrun & Hfin).
  exists out. split.
  - unfold LZ77DecompressBuffer. rewrite Hrun. cbn. rewrite Hfin.
    reflexivity.
  - apply (while_True_bounds (S (length Buffer)) initial_state r out
             (initial_at_head Buffer)); [|assumption|assumption].
    pose proof (len_nonneg Buffer). split; cbn; lia.
Qed.

End Bounds.

(** X3: the ceiling of is_valid_write_request.  Whatever the buffer,
    the decoder returns an output of at most 2 GiB (2147483648 bytes):
    a byte is written only at a position below that. *)
Theorem output_stays_below_the_ceiling (Buffer : list byte) :
  exists out,
    LZ77DecompressBuffer Buffer = Some (inr out) /\
    Py.len out <= 2 * 1024 * 1024 * 1024.
Proof.
  destruct (result_bounds Buffer) as (out & H & Hceil & _).
  exists out. split; assumption.
Qed.

(** X4: how far a buffer can expand.  The output has at most 13108
    bytes for each byte of the buffer: a literal takes one byte of
    input for one of output, and the longest match, of 65538 bytes,
    takes five (the match word, the escape byte and the 16-bit length)
    or more. *)
Theorem output_is_bounded_by_input (Buffer : list byte) :
  exists out,
    LZ77DecompressBuffer Buffer = Some (inr out) /\
    Py.len out <= 13108 * Py.len Buffer.
Proof.
  destruct (result_bounds Buffer) as (out & H & _ & Hcost).
  exists out. split; assumption.
Qed.

(** ** What a match appends *)

Section Periodic.

Variable Buffer : list byte.

Lemma copy_loop_periodic (n : nat) (MatchOffset : Z) (c : state) :
  consistent Buffer c ->
  1 <= MatchOffset <= OutputPosition c ->
  OutputPosition c + Z.of_nat n <= 2 * 1024 * 1024 * 1024 ->
  let v := BytesIO.value (OutputObject c) in
  exists c' ext,
    copy_loop n MatchOffset c = Normal (false, c') /\
    consistent Buffer c' /\
    BytesIO.value (OutputObject c') = v ++ ext /\
    length ext = n /\
    OutputPosition c' = OutputPosition c + Z.of_nat n /\
    forall i : nat,
      (i < n)%nat ->
      nth_error ext i =
      nth_error v (length v - Z.to_nat MatchOffset
                   + i mod Z.to_nat MatchOffset).
Proof.
  intros Hc Hoff Hceil v.
  destruct (copy_loop_overlap Buffer n MatchOffset c Hc Hoff Hceil)
    as (c' & Hrun & Hc' & Hlen & Hpre & Hnth).
  fold v in Hlen, Hpre, Hnth.
  set (v' := BytesIO.value (OutputObject c')) in *.
  pose proof Hc as [_ Hout _]. pose proof Hc' as [_ Hout' _].
  fold v in Hout. fold v' in Hout'. unfold Py.len in Hout, Hout'.
  exists c', (skipn (length v) v').
  split; [exact Hrun|]. split; [exact Hc'|].
  split; [rewrite <- Hpre at 1; symmetry; apply firstn_skipn|].
  split; [rewrite length_skipn; lia|]. split; [lia|].
  set (off := Z.to_nat MatchOffset) in *.
  assert (Hoff' : (1 <= off <= length v)%nat) by (unfold off; lia).
  induction i as [i IH] using lt_wf_ind. intros Hi.
  rewrite nth_error_skipn, Hnth by lia.
  destruct (Nat.lt_ge_cases i off) as [Hlt|Hge].
  - rewrite Nat.mod_small by assumption.
    rewrite (nth_error_prefix _ _ _ _ Hpre) by lia. f_equal. lia.
  - replace (length v + i - off)%nat with (length v + (i - off))%nat by lia.
    rewrite <- nth_error_skipn, IH by lia. f_equal. f_equal.
    replace i with (i - off + 1 * off)%nat at 2 by lia.
    symmetry. apply Nat.Div0.mod_add.
Qed.

End Periodic.

(** X5: a match continues the output periodically.  A copy of
    MatchLength bytes at an offset that lies within the output, and
    that stays below the 2 GiB ceiling, runs to its end and appends
    MatchLength bytes: the last MatchOffset bytes of the output as it
    was, repeated in a cycle.  With offset 1 it appends MatchLength
    copies of the last byte (a run). *)
Theorem match_repeats_the_last_bytes (Buffer : list byte)
  (MatchLength : nat) (MatchOffset : Z) (c : state) :
  consistent Buffer c ->
  1 <= MatchOffset <= OutputPosition c ->
  OutputPosition c + Z.of_nat MatchLength <= 2 * 1024 * 1024 * 1024 ->
  let v := BytesIO.value (OutputObject c) in
  exists c' ext,
    copy_loop MatchLength MatchOffset c = Normal (false, c') /\
    BytesIO.value (OutputObject c') = v ++ ext /\
    length ext = MatchLength /\
    OutputPosition c' = OutputPosition c + Z.of_nat MatchLength /\
    (forall i : nat,
       (i < MatchLength)%nat ->
       nth_error ext i =
       nth_error v (length v - Z.to_nat MatchOffset
                    + i mod Z.to_nat MatchOffset)) /\
    (MatchOffset = 1 ->
     forall w b, v = w ++ [b] -> ext = repeat b MatchLength).
Proof.
  intros Hc Hoff Hceil v.
  destruct (copy_loop_periodic Buffer MatchLength MatchOffset c
              Hc Hoff Hceil)
    as (c' & ext & Hrun & _ & Hv & Hlen & Hpos & Hnth).
  fold v in Hv, Hnth.
  exists c', ext. repeat (split; [assumption|]).
  intros -> w b Hw. apply nth_error_ext. intros i.
  destruct (Nat.lt_ge_cases i MatchLength) as [Hi|Hi].
  - rewrite (Hnth i Hi), nth_error_repeat by assumption.
    change (Z.to_nat 1) with 1%nat. rewrite Nat.mod_1_r, Hw.
    rewrite length_app. cbn [length].
    rewrite nth_error_app2 by lia.
    replace (length w + 1 - 1 + 0 - length w)%nat with 0%nat by lia.
    reflexivity.
  - transitivity (@None byte).
    + apply nth_error_None. lia.
    + symmetry. apply nth_error_None. rewrite repeat_length. lia.
Qed.

Lemma match_repeats_the_last_bytes_witness :
  exists c' ext,
    copy_loop 5 2 second_match_entry = Normal (false, c') /\
    BytesIO.value (OutputObject c') = repeat x41 12 ++ ext /\
    length ext = 5%nat /\
    OutputPosition c' = 12 + 5 /\
    (forall i : nat,
       (i < 5)%nat ->
       nth_error ext i = nth_error (repeat x41 12) (12 - 2 + i mod 2)) /\
    (2 = 1 -> forall w b, repeat x41 12 = w ++ [b] -> ext = repeat b 5).
Proof.
  apply (match_repeats_the_last_bytes three_matches 5 2 second_match_entry).
  - constructor; vm_compute; [split; discriminate|reflexivity|].
    right. split; [discriminate|reflexivity].
  - vm_compute. split; discriminate.
  - vm_compute. discriminate.
Defined.

(** X6: a match that does not overlap what it writes.  A copy of
    MatchLength bytes at an offset of at least MatchLength, within the
    output and below the 2 GiB ceiling, appends the slice of MatchLength
    bytes that starts MatchOffset bytes before the end of the output. *)
Theorem short_match_appends_a_slice (Buffer : list byte)
  (MatchLength : nat) (MatchOffset : Z) (c : state) :
  consistent Buffer c ->
  1 <= MatchOffset <= OutputPosition c ->
  Z.of_nat MatchLength <= MatchOffset ->
  OutputPosition c + Z.of_nat MatchLength <= 2 * 1024 * 1024 * 1024 ->
  let v := BytesIO.value (OutputObject c) in
  let p := OutputPosition c in
  exists c',
    copy_loop MatchLength MatchOffset c = Normal (false, c') /\
    BytesIO.value (OutputObject c') =
    v ++ Py.slice v (p - MatchOffset)
                    (p - MatchOffset + Z.of_nat MatchLength).
Proof.
  intros Hc Hoff Hn Hceil v p.
  destruct (copy_loop_periodic Buffer MatchLength MatchOffset c
              Hc Hoff Hceil)
    as (c' & ext & Hrun & _ & Hv & Hlen & Hpos & Hnth).
  fold v in Hv, Hnth. pose proof Hc as [_ Hout _]. fold v p in Hout.
  exists c'. split; [assumption|]. rewrite Hv. f_equal.
  rewrite slice_in_range by lia. rewrite Nat2Z.id.
  unfold Py.len in Hout.
  apply nth_error_ext. intros i.
  destruct (Nat.lt_ge_cases i MatchLength) as [Hi|Hi].
  - rewrite (Hnth i Hi), nth_error_firstn.
    destruct (Nat.ltb_spec i MatchLength); [|lia].
    rewrite nth_error_skipn, Nat.mod_small by lia. f_equal. lia.
  - transitivity (@None byte).
    + apply nth_error_None. lia.
    + symmetry. apply nth_error_None. rewrite length_firstn. lia.
Qed.

Lemma short_match_appends_a_slice_witness :
  exists c',
    copy_loop 3 5 second_match_entry = Normal (false, c') /\
    BytesIO.value (OutputObject c') =
    repeat x41 12 ++ Py.slice (repeat x41 12) (12 - 5) (12 - 5 + 3).
Proof.
  apply (short_match_appends_a_slice three_matches 3 5 second_match_entry).
  - constructor; vm_compute; [split; discriminate|reflexivity|].
    right. split; [discriminate|reflexivity].
  - vm_compute. split; discriminate.
  - vm_compute. discriminate.
  - vm_compute. discriminate.
Defined.

(** ** Streams of literals *)

Lemma getitem_middle {A : Type} (pre post : list A) (x : A) :
  Py.getitem (pre ++ x :: post) (Py.len pre) = Some x.
Proof.
  rewrite getitem_nonneg by apply len_nonneg.
  rewrite len_app. unfold Py.len. cbn [length].
  destruct (Z.ltb_spec (Z.of_nat (length pre))
              (Z.of_nat (length pre) + Z.of_nat (S (length post))));
    [|lia].
  rewrite Nat2Z.id, nth_error_app2, Nat.sub_diag by lia. reflexivity.
Qed.

Lemma slice_middle {A : Type} (pre mid post : list A) :
  Py.slice (pre ++ mid ++ post) (Py.len pre) (Py.len pre + Py.len mid) = mid.
Proof.
  pose proof (len_nonneg pre). pose proof (len_nonneg mid).
  pose proof (len_nonneg post).
  rewrite slice_in_range by (rewrite ?len_app; lia).
  unfold Py.len. rewrite !Nat2Z.id.
  rewrite skipn_app, Nat.sub_diag, skipn_all. cbn [skipn app].
  rewrite firstn_app, Nat.sub_diag, firstn_all. cbn [firstn].
  apply app_nil_r.
Qed.

Section Literals.

Variable Buffer : list byte.

Lemma literal_pass (count pos : Z) (out : list byte) (b : byte) :
  1 <= count <= 32 -> 0 <= pos ->
  Py.getitem Buffer pos = Some b ->
  Py.len out < 2 * 1024 * 1024 * 1024 ->
  iteration Buffer (literal_state count pos out) =
  Normal (literal_state (count - 1) (pos + 1) (out ++ [b])).
Proof.
  intros Hc Hp G Hout. unfold iteration, refill, literal_state.
  cbn [BufferedFlagCount].
  destruct (count =? 0) eqn:E; [lia|]. cbn [bind].
  rewrite take_flag_cases by (cbn; lia). cbn [bind].
  fields. rewrite Z.land_0_l. cbn [Z.eqb].
  unfold literal. fields. rewrite G.
  unfold is_valid_write_request, BytesIO.seek. fields.
  destruct (Py.len out <? 2 * 1024 * 1024 * 1024) eqn:V; [|lia].
  pose proof (len_nonneg out).
  destruct (Py.len out <? 0) eqn:N; [lia|]. cbn [lift bind].
  rewrite write_at_end. fields. rewrite len_app.
  change (Py.len [b]) with 1. reflexivity.
Qed.

Lemma flag_word_pass (pos : Z) (out : list byte) :
  0 <= pos ->
  Py.slice Buffer pos (pos + 4) = [x00; x00; x00; x00] ->
  iteration Buffer (literal_state 0 pos out) =
  iteration Buffer (literal_state 32 (pos + 4) out).
Proof.
  intros Hp S. unfold iteration, refill, literal_state. fields.
  rewrite S. reflexivity.
Qed.

Lemma literals_reachable (g : list byte) :
  forall (pre post : list byte) (count : Z) (out : list byte),
    Buffer = pre ++ g ++ post ->
    Py.len g <= count <= 32 ->
    Py.len out + Py.len g <= 2 * 1024 * 1024 * 1024 ->
    reachable Buffer (literal_state count (Py.len pre) out) ->
    reachable Buffer
      (literal_state (count - Py.len g) (Py.len pre + Py.len g)
                     (out ++ g)).
Proof.
  induction g as [|b g IH]; intros pre post count out HB Hc Hout Hr.
  - change (Py.len (@nil byte)) with 0.
    rewrite Z.sub_0_r, Z.add_0_r, app_nil_r. exact Hr.
  - assert (Hlen : Py.len (b :: g) = 1 + Py.len g)
      by (unfold Py.len; cbn [length]; lia).
    rewrite Hlen in *. pose proof (len_nonneg g). pose proof (len_nonneg pre).
    replace (count - (1 + Py.len g)) with (count - 1 - Py.len g) by lia.
    replace (Py.len pre + (1 + Py.len g))
      with (Py.len (pre ++ [b]) + Py.len g)
      by (rewrite len_app; change (Py.len [b]) with 1; lia).
    replace (out ++ b :: g) with ((out ++ [b]) ++ g)
      by (rewrite <- app_assoc; reflexivity).
    apply (IH (pre ++ [b]) post).
    + rewrite HB, <- app_assoc. reflexivity.
    + lia.
    + rewrite len_app. change (Py.len [b]) with 1. lia.
    + apply (reachable_next Buffer _ _ Hr).
      rewrite len_app. change (Py.len [b]) with 1.
      apply literal_pass; try lia.
      rewrite HB. apply (getitem_middle pre (g ++ post) b).
Qed.

Lemma group_reachable (g pre post out : list byte) :
  Buffer = pre ++ literal_group g ++ post ->
  g <> [] -> Py.len g <= 32 ->
  Py.len out + Py.len g <= 2 * 1024 * 1024 * 1024 ->
  reachable Buffer (literal_state 0 (Py.len pre) out) ->
  reachable Buffer
    (literal_state (32 - Py.len g) (Py.len pre + 4 + Py.len g) (out ++ g)).
Proof.
  intros HB Hne Hg Hout Hr. destruct g as [|b g]; [contradiction|].
  assert (Hlen : Py.len (b :: g) = 1 + Py.len g)
    by (unfold Py.len; cbn [length]; lia).
  rewrite Hlen in *. pose proof (len_nonneg g). pose proof (len_nonneg pre).
  unfold literal_group in HB.
  set (fw := [x00; x00; x00; x00]) in HB.
  assert (H1 : reachable Buffer
                 (literal_state 31 (Py.len (pre ++ fw ++ [b])) (out ++ [b]))).
  { apply (reachable_next Buffer _ _ Hr).
    rewrite flag_word_pass.
    - rewrite !len_app. change (Py.len fw) with 4.
      change (Py.len [b]) with 1.
      replace (Py.len pre + (4 + 1)) with (Py.len pre + 4 + 1) by lia.
      apply literal_pass; try lia.
      replace (Py.len pre + 4) with (Py.len (pre ++ fw))
        by (rewrite len_app; reflexivity).
      rewrite HB, <- !app_assoc.
      rewrite (app_assoc pre fw). apply getitem_middle.
    - lia.
    - rewrite HB, <- app_assoc.
      change 4 with (Py.len fw) at 1. apply slice_middle. }
  replace (32 - (1 + Py.len g)) with (31 - Py.len g) by lia.
  replace (Py.len pre + 4 + (1 + Py.len g))
    with (Py.len (pre ++ fw ++ [b]) + Py.len g)
    by (rewrite !len_app; change (Py.len fw) with 4;
        change (Py.len [b]) with 1; lia).
  replace (out ++ b :: g) with ((out ++ [b]) ++ g)
    by (rewrite <- app_assoc; reflexivity).
  apply (literals_reachable g (pre ++ fw ++ [b]) post).
  - rewrite HB, <- !app_assoc. reflexivity.
  - lia.
  - rewrite len_app. change (Py.len [b]) with 1. lia.
  - exact H1.
Qed.

Lemma groups_reachable (groups : list (list byte)) :
  forall pre post out : list byte,
    Buffer = pre ++ flat_map literal_group groups ++ post ->
    Forall (fun g => length g = 32%nat) groups ->
    Py.len out + Py.len (concat groups) <= 2 * 1024 * 1024 * 1024 ->
    reachable Buffer (literal_state 0 (Py.len pre) out) ->
    reachable Buffer
      (literal_state 0 (Py.len pre + Py.len (flat_map literal_group groups))
                     (out ++ concat groups)).
Proof.
  induction groups as [|g groups IH]; intros pre post out HB Hg Hout Hr.
  - cbn [flat_map concat]. change (Py.len (@nil byte)) with 0.
    rewrite Z.add_0_r, app_nil_r. exact Hr.
  - cbn [flat_map concat] in *. rewrite len_app in *.
    inversion Hg as [|g' gs' Hlen Hrest]; subst g' gs'.
    assert (Hl : Py.len g = 32) by (unfold Py.len; lia).
    pose proof (len_nonneg (concat groups)).
    assert (Hlg : Py.len (literal_group g) = 4 + 32).
    { unfold literal_group. rewrite len_app, Hl. reflexivity. }
    replace (Py.len pre + (Py.len (literal_group g) +
                           Py.len (flat_map literal_group groups)))
      with (Py.len (pre ++ literal_group g) +
            Py.len (flat_map literal_group groups))
      by (rewrite len_app; lia).
    rewrite app_assoc.
    apply (IH (pre ++ literal_group g) post).
    + rewrite HB, <- !app_assoc. reflexivity.
    + assumption.
    + rewrite len_app. lia.
    + rewrite len_app, Hlg.
      replace 0 with (32 - Py.len g) at 1 by lia.
      replace (Py.len pre + (4 + 32)) with (Py.len pre + 4 + Py.len g)
        by lia.
      apply (group_reachable g pre
               (flat_map literal_group groups ++ post)).
      * rewrite HB, <- app_assoc. reflexivity.
      * intros ->. discriminate.
      * lia.
      * lia.
      * exact Hr.
Qed.

Lemma end_of_input (count : Z) (out : list byte) :
  0 <= count <= 32 ->
  exists s',
    iteration Buffer (literal_state count (Py.len Buffer) out) = Break s' /\
    BytesIO.value (OutputObject s') = out.
Proof.
  intros Hc. pose proof (len_nonneg Buffer). pose proof (len_nonneg out).
  set (s := literal_state count (Py.len Buffer) out).
  unfold iteration.
  destruct (refill_cases Buffer s ltac:(cbn; lia))
    as [[Hne E]|[(_ & _ & E)|(_ & Hle & _)]].
  - rewrite E. cbn [bind]. rewrite take_flag_cases by (cbn in *; lia).
    cbn [bind]. unfold s at 1, literal_state at 1. fields.
    rewrite Z.land_0_l. cbn [Z.eqb].
    set (s2 := set_BufferedFlagCount _ _).
    destruct (literal_cases Buffer s2 ltac:(cbn; lia) ltac:(cbn; lia))
      as [[_ L]|(b & _ & Hlt & _)].
    + exists s2. split; [exact L|reflexivity].
    + cbn in Hlt. lia.
  - rewrite E. exists s. split; reflexivity.
  - cbn in Hle. lia.
Qed.

End Literals.

(** X7: a stream of literals decodes to its literals.  For a chunk
    made of flag words of 0, each followed by 32 literal bytes, and a
    last flag word of 0 followed by at most 32 literal bytes, the
    decoder returns the literal bytes, in order (as long as they stay
    within the 2 GiB ceiling). *)
Theorem literal_stream_decodes (groups : list (list byte))
  (last : list byte) :
  Forall (fun g => length g = 32%nat) groups ->
  (length last <= 32)%nat ->
  Py.len (concat groups ++ last) <= 2 * 1024 * 1024 * 1024 ->
  LZ77DecompressBuffer (literal_stream groups last) =
  Some (inr (concat groups ++ last)).
Proof.
  intros Hg Hlast Hceil. rewrite len_app in Hceil.
  pose proof (len_nonneg last) as Hl0.
  pose proof (len_nonneg (concat groups)) as Hc0.
  set (Buffer := literal_stream groups last).
  set (pre := flat_map literal_group groups).
  assert (HB : Buffer = pre ++ literal_group last ++ [])
    by (rewrite app_nil_r; reflexivity).
  assert (Hr : reachable Buffer
                 (literal_state 0 (Py.len pre) (concat groups))).
  { apply (groups_reachable Buffer groups [] (literal_group last) []).
    - reflexivity.
    - assumption.
    - change (Py.len (@nil byte)) with 0. lia.
    - apply reachable_initial. }
  assert (Hlen : Py.len Buffer = Py.len pre + 4 + Py.len last).
  { rewrite HB, app_nil_r, len_app. unfold literal_group.
    rewrite len_app. change (Py.len [x00; x00; x00; x00]) with 4. lia. }
  destruct last as [|b last].
  - destruct (end_of_input Buffer 32 (concat groups) ltac:(lia))
      as (s' & E & Hv).
    rewrite app_nil_r, <- Hv.
    apply (break_result Buffer _ s' Hr).
    rewrite flag_word_pass.
    + change (Py.len (@nil byte)) with 0 in Hlen.
      replace (Py.len pre + 4) with (Py.len Buffer) by lia. exact E.
    + apply len_nonneg.
    + rewrite HB. unfold literal_group.
      change 4 with (Py.len [x00; x00; x00; x00]) at 1.
      rewrite <- app_assoc. apply slice_middle.
  - set (g := b :: last) in *.
    assert (Hg32 : Py.len g <= 32) by (unfold Py.len; lia).
    pose proof (group_reachable Buffer g pre [] (concat groups) HB
                  ltac:(discriminate) Hg32 ltac:(lia) Hr) as Hr'.
    rewrite <- Hlen in Hr'.
    destruct (end_of_input Buffer (32 - Py.len g) (concat groups ++ g)
                ltac:(lia)) as (s' & E & Hv).
    rewrite <- Hv. apply (break_result Buffer _ s' Hr' E).
Qed.

Lemma literal_stream_decodes_witness :
  LZ77DecompressBuffer
    (literal_stream [skipn 4 all_literals] [x61; x62; x63]) =
  Some (inr (concat [skipn 4 all_literals] ++ [x61; x62; x63])).
Proof.
  apply (literal_stream_decodes [skipn 4 all_literals] [x61; x62; x63]).
  - repeat constructor.
  - vm_compute. repeat constructor.
  - vm_compute. discriminate.
Defined.

(** ** A chunk and its prefixes *)

Section Longer.

Variables Buffer Extra : list byte.

Lemma getitem_longer (i : Z) (b : byte) :
  0 <= i -> Py.getitem Buffer i = Some b ->
  Py.getitem (Buffer ++ Extra) i = Some b.
Proof.
  intros Hi G. pose proof (getitem_Some_lt Buffer i b Hi G) as Hlt.
  rewrite getitem_nonneg in * by assumption.
  rewrite len_app. pose proof (len_nonneg Extra).
  destruct (Z.ltb_spec i (Py.len Buffer)); [|lia].
  destruct (Z.ltb_spec i (Py.len Buffer + Py.len Extra)); [|lia].
  rewrite nth_error_app1 by (unfold Py.len in *; lia). exact G.
Qed.

Lemma slice_longer (i n : Z) :
  0 <= i -> 0 < n ->
  Py.len (Py.slice Buffer i (i + n)) = n ->
  Py.slice (Buffer ++ Extra) i (i + n) = Py.slice Buffer i (i + n).
Proof.
  intros Hi Hn L. apply slice_full_iff in L; try assumption.
  pose proof (len_nonneg Extra).
  rewrite !slice_in_range by (rewrite ?len_app; lia).
  unfold Py.len in *.
  rewrite skipn_app, firstn_app, length_skipn.
  replace (Z.to_nat n - (length Buffer - Z.to_nat i))%nat with 0%nat
    by lia.
  cbn [firstn]. apply app_nil_r.
Qed.

Lemma refill_longer (s s1 : state) :
  0 <= InputPosition s ->
  refill Buffer s = Normal s1 -> refill (Buffer ++ Extra) s = Normal s1.
Proof.
  intros Hp. unfold refill.
  destruct (BufferedFlagCount s =? 0); [|trivial].
  destruct (Py.len (Py.slice Buffer (InputPosition s) (InputPosition s + 4))
            =? 4) eqn:L; cbn [negb]; [|discriminate].
  intros H. rewrite slice_longer by (try apply Z.eqb_eq; assumption || lia).
  rewrite L. exact H.
Qed.

Lemma literal_longer (s s' : state) :
  0 <= InputPosition s ->
  literal Buffer s = Normal s' -> literal (Buffer ++ Extra) s = Normal s'.
Proof.
  intros Hp. unfold literal.
  destruct (Py.getitem Buffer (InputPosition s)) as [b|] eqn:G;
    [|discriminate].
  rewrite (getitem_longer _ _ Hp G). trivial.
Qed.

Lemma literal_break (s s' : state) :
  literal Buffer s = Break s' -> s' = s.
Proof.
  unfold literal.
  destruct (Py.getitem Buffer (InputPosition s)); [|congruence].
  destruct (is_valid_write_request (OutputPosition s)); [|congruence].
  unfold BytesIO.seek. destruct (_ <? 0); cbn [lift bind]; discriminate.
Qed.

Lemma read_match_word_longer (s : state) (x : Z * state) :
  0 <= InputPosition s ->
  read_match_word Buffer s = Normal x ->
  read_match_word (Buffer ++ Extra) s = Normal x.
Proof.
  intros Hp. unfold read_match_word.
  destruct (Py.len (Py.slice Buffer (InputPosition s) (InputPosition s + 2))
            =? 2) eqn:L; cbn [negb]; [|discriminate].
  intros H. rewrite slice_longer by (try apply Z.eqb_eq; assumption || lia).
  rewrite L. exact H.
Qed.

Lemma read_match_word_break (s s' : state) :
  read_match_word Buffer s = Break s' -> s' = s.
Proof.
  unfold read_match_word.
  destruct (negb _); [congruence|].
  destruct (Py.unpack 2 _); cbn [lift bind]; discriminate.
Qed.

Lemma length_nibble_longer (e : state) (x : Z * state) :
  0 <= InputPosition e -> 0 <= LastLengthHalfByte e ->
  length_nibble Buffer e = Normal x ->
  length_nibble (Buffer ++ Extra) e = Normal x.
Proof.
  intros Hp Hl. unfold length_nibble.
  destruct (LastLengthHalfByte e =? 0).
  - destruct (Py.getitem Buffer (InputPosition e)) as [b|] eqn:G;
      [|discriminate].
    rewrite (getitem_longer _ _ Hp G). trivial.
  - destruct (Py.getitem Buffer (LastLengthHalfByte e)) as [b|] eqn:G;
      [|discriminate].
    rewrite (getitem_longer _ _ Hl G). trivial.
Qed.

Lemma length_escape_longer (n : Z) (e : state) (x : Z * state) :
  0 <= InputPosition e ->
  length_escape Buffer n e = Normal x ->
  length_escape (Buffer ++ Extra) n e = Normal x.
Proof.
  intros Hp. unfold length_escape.
  destruct (n =? 15); [|trivial].
  destruct (Py.getitem Buffer (InputPosition e)) as [b|] eqn:G;
    [|discriminate].
  rewrite (getitem_longer _ _ Hp G). cbv zeta.
  cbn [InputPosition set_InputPosition].
  destruct (Py.int_of_byte b =? 255); [|trivial].
  destruct (Py.len (Py.slice Buffer (InputPosition e + 1)
                      (InputPosition e + 1 + 2)) =? 2) eqn:L;
    cbn [negb]; [|discriminate].
  intros H. rewrite slice_longer by (try apply Z.eqb_eq; assumption || lia).
  rewrite L. exact H.
Qed.

Lemma match_length_longer (MatchBytes : Z) (e : state) (x : Z * state) :
  consistent Buffer e -> 6 <= InputPosition e ->
  match_length Buffer MatchBytes e = Normal x ->
  match_length (Buffer ++ Extra) MatchBytes e = Normal x.
Proof.
  intros He H6. unfold match_length.
  destruct (MatchBytes mod 8 =? 7); [|trivial].
  pose proof (length_nibble_outcome Buffer e He H6) as N.
  destruct (length_nibble Buffer e) as [[n s1]|s1| |] eqn:EN;
    cbn [bind]; try discriminate.
  destruct He as [Hin _ Hc].
  rewrite (length_nibble_longer e _ ltac:(lia) ltac:(lia) EN). cbn [bind].
  destruct N as (_ & [Hin1 _ _] & _).
  destruct (length_escape Buffer n s1) as [[m s2]|s2| |] eqn:EX;
    cbn [bind]; try discriminate.
  rewrite (length_escape_longer n s1 _ ltac:(lia) EX). trivial.
Qed.

Lemma match_body_longer (MatchBytes : Z) (e : state) :
  consistent Buffer e -> 6 <= InputPosition e ->
  match match_body Buffer MatchBytes e with
  | Normal s' => match_body (Buffer ++ Extra) MatchBytes e = Normal s'
  | Break s' =>
      OutputObject s' = OutputObject e \/
      match_body (Buffer ++ Extra) MatchBytes e = Break s'
  | Return _ | Raise _ => True
  end.
Proof.
  intros He H6.
  pose proof (match_length_outcome Buffer MatchBytes e He H6) as L.
  pose proof (match_length_longer MatchBytes e) as M.
  unfold match_body.
  destruct (match_length Buffer MatchBytes e) as [[n s1]|s1| |];
    unfold length_outcome in L; cbn [bind]; try contradiction.
  - rewrite (M _ He H6 eq_refl). cbn [bind].
    destruct (copy_loop (Z.to_nat n) (MatchBytes / 8 + 1) s1)
      as [[[|] s2]| | |]; cbn [bind]; trivial; right; reflexivity.
  - left. apply L.
Qed.

Lemma iteration_longer (s : state) :
  at_head Buffer s ->
  match iteration Buffer s with
  | Normal s' => iteration (Buffer ++ Extra) s = Normal s'
  | Break s' =>
      OutputObject s' = OutputObject s \/
      iteration (Buffer ++ Extra) s = Break s'
  | Return v => v = BytesIO.value (OutputObject s)
  | Raise _ => False
  end.
Proof.
  intros Hs. pose proof Hs as [[Hin _ _] _ _].
  pose proof (refill_outcome Buffer s Hs) as R.
  pose proof (refill_longer s) as RL.
  unfold iteration.
  destruct (refill Buffer s) as [s1|s1| |]; cbn [bind];
    try contradiction.
  2:{ left. congruence. }
  rewrite (RL s1 ltac:(lia) eq_refl). cbn [bind].
  destruct R as (Hs1 & Hcount & H4 & Hp & Ho & Hl).
  rewrite (take_flag_cases s1) by lia. cbn [bind].
  set (s2 := set_BufferedFlagCount (BufferedFlagCount s1 - 1) s1).
  assert (Hs2 : in_body Buffer s2).
  { destruct Hs1. constructor; cbn; [|lia|lia].
    constructor; cbn; assumption. }
  assert (Ep : InputPosition s2 = InputPosition s1) by reflexivity.
  assert (Eoo : OutputObject s2 = OutputObject s1) by reflexivity.
  clearbody s2. pose proof Hs2 as [Hc2 _ _].
  destruct (Z.land _ _ =? 0).
  - pose proof (literal_longer s2) as LL.
    pose proof (literal_break s2) as LB.
    pose proof (literal_outcome Buffer s2 Hs2) as LO.
    destruct (literal Buffer s2) as [s'|s'|v|e]; cbn in LO.
    + apply LL; [lia|reflexivity].
    + left. rewrite (LB s' eq_refl). congruence.
    + rewrite LO. congruence.
    + contradiction.
  - unfold process_match at 1.
    destruct (InputPosition s2 =? Py.len Buffer) eqn:Elen.
    { unfold BytesIO.getvalue. congruence. }
    apply Z.eqb_neq in Elen.
    destruct (read_match_word_cases Buffer s2 ltac:(lia))
      as [[_ M]|(Hle & W & _ & M)]; rewrite M; cbn [bind].
    { left. congruence. }
    set (e := set_InputPosition (InputPosition s2 + 2) s2) in *.
    assert (EP : process_match (Buffer ++ Extra) s2 =
                 match_body (Buffer ++ Extra) W e).
    { unfold process_match. rewrite len_app.
      pose proof (len_nonneg Extra).
      destruct (Z.eqb_spec (InputPosition s2)
                  (Py.len Buffer + Py.len Extra)); [lia|].
      rewrite (read_match_word_longer s2 _ ltac:(lia) M). reflexivity. }
    rewrite EP.
    assert (He : in_body Buffer e).
    { destruct Hs2 as [[Hin2 Hout2 Hca2] Hcount2 Hfw2].
      constructor; cbn; [|lia|lia]. constructor; cbn; lia. }
    pose proof (match_body_outcome Buffer W e He ltac:(cbn; lia)) as O.
    pose proof (match_body_longer W e ltac:(apply He) ltac:(cbn; lia))
      as ML.
    destruct (match_body Buffer W e) as [s'|s'|v|x]; try contradiction.
    + exact ML.
    + destruct ML as [ML|ML]; [left|right; exact ML].
      rewrite ML. cbn. congruence.
Qed.

Lemma reachable_longer (s : state) :
  reachable Buffer s -> reachable (Buffer ++ Extra) s.
Proof.
  induction 1 as [|s s' Hr IH E].
  - apply reachable_initial.
  - apply (reachable_next _ s s' IH).
    pose proof (iteration_longer s (reachable_at_head Buffer s Hr)) as L.
    rewrite E in L. exact L.
Qed.

End Longer.

Lemma final_pass_from (Buffer : list byte) (fuel : nat) (s : state) :
  reachable Buffer s ->
  Py.len Buffer - InputPosition s < Z.of_nat fuel ->
  exists t,
    reachable Buffer t /\ forall t', iteration Buffer t <> Normal t'.
Proof.
  revert s. induction fuel as [|fuel IH]; intros s Hr Hf.
  - pose proof (reachable_at_head Buffer s Hr) as [[Hin _ _] _ _]. lia.
  - destruct (iteration Buffer s) as [s'|s'|v|e] eqn:E.
    + pose proof (iteration_outcome Buffer s
                    (reachable_at_head Buffer s Hr)) as P.
      rewrite E in P. destruct P as (_ & Hlt & _).
      apply (IH s'); [exact (reachable_next Buffer s s' Hr E)|lia].
    + exists s. split; [assumption|]. intros t'. rewrite E. discriminate.
    + exists s. split; [assumption|]. intros t'. rewrite E. discriminate.
    + exists s. split; [assumption|]. intros t'. rewrite E. discriminate.
Qed.

(** X8: a chunk cut short decodes to a prefix.  What the decoder
    returns for a buffer is a prefix of what it returns for the same
    buffer with any bytes appended: bytes behind a compressed chunk only
    add output behind the output of the chunk. *)
Theorem appended_input_only_appends_output (Buffer Extra : list byte) :
  exists out ext,
    LZ77DecompressBuffer Buffer = Some (inr out) /\
    LZ77DecompressBuffer (Buffer ++ Extra) = Some (inr (out ++ ext)).
Proof.
  destruct (final_pass_from Buffer (S (length Buffer)) initial_state
              (reachable_initial Buffer)
              ltac:(unfold Py.len; cbn; lia)) as (t & Ht & Hn).
  pose proof (reachable_at_head Buffer t Ht) as Hat.
  pose proof (iteration_outcome Buffer t Hat) as P.
  pose proof (iteration_longer Buffer Extra t Hat) as L.
  pose proof (reachable_longer Buffer Extra t Ht) as Ht'.
  destruct (reachable_output_is_prefix (Buffer ++ Extra) t Ht')
    as (ext & Hext).
  destruct (iteration Buffer t) as [s'|s'|v|e] eqn:E.
  - exfalso. apply (Hn s'). reflexivity.
  - exists (BytesIO.value (OutputObject s')).
    destruct L as [L|L].
    + exists ext. split; [exact (break_result Buffer t s' Ht E)|].
      rewrite L. exact Hext.
    + exists []. split; [exact (break_result Buffer t s' Ht E)|].
      rewrite app_nil_r. exact (break_result (Buffer ++ Extra) t s' Ht' L).
  - exists v, ext. split.
    + apply (run_result Buffer t (Returned v) Ht).
      cbn. rewrite E. reflexivity.
    + rewrite L. exact Hext.
  - contradiction.
Qed.

(** ** Further properties of the scan *)

Lemma scan_is_filter (Buffer : list byte) :
  compressed_data_to_process Buffer =
  filter (fun w => negb (Py.startswith w null_bytes_12))
         (candidate_windows Buffer).
Proof.
  unfold compressed_data_to_process, candidate_windows.
  change 0 with (16 * Z.of_nat 0).
  rewrite (scan_loop_windows Buffer (window_count Buffer) 0 [])
    by reflexivity.
  reflexivity.
Qed.

Lemma candidate_window_iff (Buffer w : list byte) :
  In w (candidate_windows Buffer) <->
  exists k : nat, 16 * Z.of_nat k < Py.len Buffer /\ w = window_at Buffer k.
Proof.
  unfold candidate_windows. rewrite in_map_iff. split.
  - intros (k & <- & Hk). apply in_seq in Hk. exists k.
    split; [apply window_count_spec; lia|reflexivity].
  - intros (k & Hk & ->). exists k. split; [reflexivity|].
    apply in_seq. apply window_count_spec in Hk. lia.
Qed.

Lemma startswith_needs_length (w p : list byte) :
  Py.startswith w p = true -> Py.len p <= Py.len w.
Proof.
  intros H. apply startswith_spec in H. destruct H as (rest & ->).
  rewrite len_app. pose proof (len_nonneg rest). lia.
Qed.

(** X9: the zero filter needs 12 bytes.  A window of fewer than 12
    bytes, as the last window of a buffer can be, is handed to the
    decoder whatever it holds, zero bytes included: startswith is false
    for a string shorter than the prefix. *)
Theorem short_window_passes_the_zero_filter (Buffer : list byte) (k : nat) :
  16 * Z.of_nat k < Py.len Buffer ->
  Py.len Buffer - 16 * Z.of_nat k < 12 ->
  In (Py.slice Buffer (16 * Z.of_nat k) (16 * Z.of_nat k + PAGE_SIZE))
     (compressed_data_to_process Buffer).
Proof.
  intros Hk Hshort. unfold PAGE_SIZE.
  rewrite (slice_is_window Buffer k Hk), scan_is_filter.
  apply filter_In. split.
  - apply candidate_window_iff. exists k. split; [assumption|reflexivity].
  - apply negb_true_iff.
    destruct (Py.startswith (window_at Buffer k) null_bytes_12) eqn:E;
      [|reflexivity].
    apply startswith_needs_length in E.
    rewrite (window_at_len Buffer k Hk) in E.
    change (Py.len null_bytes_12) with 12 in E. lia.
Qed.

Lemma short_window_passes_the_zero_filter_witness :
  In (Py.slice (repeat x00 20) (16 * Z.of_nat 1)
               (16 * Z.of_nat 1 + PAGE_SIZE))
     (compressed_data_to_process (repeat x00 20)).
Proof.
  apply (short_window_passes_the_zero_filter (repeat x00 20) 1).
  - vm_compute. reflexivity.
  - vm_compute. reflexivity.
Defined.

Lemma firstn_repeat_le {A : Type} (x : A) (n m : nat) :
  (n <= m)%nat -> firstn n (repeat x m) = repeat x n.
Proof.
  revert m. induction n as [|n IH]; intros m H; [reflexivity|].
  destruct m as [|m]; [lia|]. cbn. f_equal. apply IH. lia.
Qed.

(** X10: what a page holds.  A page yielded for a decompressed chunk is
    the first 4096 bytes of the chunk followed by zero bytes, and the
    same page would be yielded for the page itself. *)
Theorem page_is_chunk_cut_or_padded (decompressed_data page : list byte) :
  yield_page decompressed_data = Some page ->
  page = firstn (Z.to_nat 4096)
                (decompressed_data ++ repeat x00 (Z.to_nat 4096)) /\
  yield_page page = Some page.
Proof.
  intros Y. pose proof (yield_page_length _ _ Y) as Hlen.
  destruct (yield_page_cases decompressed_data) as (C1 & C2 & C3 & C4).
  destruct (yield_page_cases page) as (_ & _ & _ & P4).
  split; [|exact (P4 Hlen)].
  pose proof (len_nonneg decompressed_data) as H0.
  set (n := Z.to_nat 4096) in *.
  assert (Hn : Z.of_nat n = 4096) by reflexivity.
  destruct (Z_lt_dec (Py.len decompressed_data) 1024) as [H|H];
    [rewrite (C1 H) in Y; discriminate|].
  destruct (Z_lt_dec (Py.len decompressed_data) 4096) as [H1|H1].
  - rewrite (C2 ltac:(lia)) in Y.
    assert (E : page = decompressed_data ++
                repeat x00 (Z.to_nat (4096 - Py.len decompressed_data)))
      by congruence.
    rewrite E. unfold Py.len in *.
    rewrite firstn_app, firstn_all2 by lia. f_equal.
    rewrite firstn_repeat_le by lia. f_equal. lia.
  - assert (E : page = firstn n decompressed_data).
    { destruct (Z.eq_dec (Py.len decompressed_data) 4096) as [H2|H2].
      - rewrite (C4 H2) in Y.
        assert (E : page = decompressed_data) by congruence.
        rewrite E. symmetry. apply firstn_all2. unfold Py.len in *. lia.
      - rewrite (C3 ltac:(lia)) in Y. congruence. }
    rewrite E. rewrite firstn_app. unfold Py.len in *.
    replace (n - length decompressed_data)%nat with 0%nat by lia.
    cbn [firstn]. symmetry. apply app_nil_r.
Qed.

Lemma page_is_chunk_cut_or_padded_witness :
  repeat x41 1024 ++ repeat x00 3072 =
    firstn (Z.to_nat 4096) (repeat x41 1024 ++ repeat x00 (Z.to_nat 4096)) /\
  yield_page (repeat x41 1024 ++ repeat x00 3072) =
    Some (repeat x41 1024 ++ repeat x00 3072).
Proof.
  apply (page_is_chunk_cut_or_padded (repeat x41 1024)).
  vm_compute. reflexivity.
Defined.

(** ** The generator of ScanBuffer *)

Lemma decode_total (compressed_data : list byte) :
  exists decompressed_data,
    LZ77DecompressBuffer compressed_data = Some (inr decompressed_data).
Proof.
  destruct (result_bounds compressed_data) as (out & H & _).
  exists out. exact H.
Qed.

Lemma ScanBuffer_yields_spec (delivered : list (list byte)) :
  ScanBuffer_yields delivered =
  Some (flat_map pages_of_window delivered, None).
Proof.
  induction delivered as [|w rest IH]; [reflexivity|].
  destruct (decode_total w) as (d & Hd).
  cbn [ScanBuffer_yields flat_map]. unfold pages_of_window at 1.
  rewrite Hd, IH. unfold yielded_pages. cbn [flat_map].
  destruct (yield_page d); reflexivity.
Qed.







Lemma skipn_repeat {A : Type} (x : A) (n m : nat) :
  skipn n (repeat x m) = repeat x (m - n).
Proof.
  revert m. induction n as [|n IH]; intros m.
  - rewrite Nat.sub_0_r. reflexivity.
  - destruct m as [|m]; [reflexivity|]. cbn. apply IH.
Qed.

Lemma firstn_repeat_min {A : Type} (x : A) (n m : nat) :
  firstn n (repeat x m) = repeat x (Nat.min n m).
Proof.
  destruct (Nat.le_ge_cases n m) as [H|H].
  - rewrite Nat.min_l by assumption. apply firstn_repeat_le. assumption.
  - rewrite Nat.min_r by assumption. apply firstn_all2.
    rewrite repeat_length. assumption.
Qed.

Lemma flat_map_nil {A B : Type} (f : A -> list B) (l : list A) :
  (forall x, In x l -> f x = []) -> flat_map f l = [].
Proof.
  induction l as [|x l IH]; intros H; [reflexivity|].
  cbn [flat_map]. rewrite (H x (or_introl eq_refl)). cbn.
  apply IH. intros y Hy. apply H. right. exact Hy.
Qed.

Lemma short_zero_window_gives_no_page (m : nat) :
  (m < 12)%nat -> pages_of_window (repeat x00 m) = [].
Proof.
  intros H.
  do 12 (destruct m as [|m]; [vm_compute; reflexivity|]). lia.
Qed.

(** X13: a buffer of zero bytes.  Whatever its length, a buffer that
    holds only zero bytes yields no page: its windows of 12 bytes or
    more are skipped, and a shorter last window decodes to fewer than
    1024 bytes. *)
Theorem zero_buffer_yields_no_page (n : nat)
  (delivered : list (list byte)) :
  Permutation delivered (compressed_data_to_process (repeat x00 n)) ->
  ScanBuffer_yields delivered = Some ([], None).
Proof.
  intros HP. rewrite ScanBuffer_yields_spec. f_equal. f_equal.
  apply flat_map_nil. intros w Hw.
  apply (Permutation_in w HP) in Hw. rewrite scan_is_filter in Hw.
  apply filter_In in Hw. destruct Hw as [Hc Hz].
  apply candidate_window_iff in Hc. destruct Hc as (k & Hk & ->).
  unfold window_at in *. rewrite skipn_repeat, firstn_repeat_min in *.
  set (m := Nat.min _ _) in *.
  apply short_zero_window_gives_no_page.
  destruct (Nat.lt_ge_cases m 12) as [Hlt|Hge]; [assumption|exfalso].
  apply negb_true_iff in Hz.
  assert (E : Py.startswith (repeat x00 m) null_bytes_12 = true).
  { apply startswith_spec. exists (repeat x00 (m - 12)).
    unfold null_bytes_12. rewrite <- repeat_app. f_equal. lia. }
  congruence.
Qed.

Lemma zero_buffer_yields_no_page_witness :
  ScanBuffer_yields (compressed_data_to_process (repeat x00 20)) =
  Some ([], None).
Proof.
  apply (zero_buffer_yields_no_page 20).
  apply Permutation_refl.
Defined.

(** ** The file scanner *)

Lemma ScanFile_loop_done (file : list byte) (pos : Z)
  (bufs : list (list byte)) :
  Py.len file <= pos -> ScanFile_loop file pos bufs = bufs.
Proof.
  intros H. rewrite ScanFile_loop_equation_1.
  destruct (Z_lt_dec pos (Py.len file)); [lia|reflexivity].
Qed.

Lemma ScanFile_loop_step (file : list byte) (pos : Z)
  (bufs : list (list byte)) :
  pos < Py.len file ->
  ScanFile_loop file pos bufs =
  let buf := seek_and_read file pos read_chunk_size in
  if negb (Py.len buf =? read_chunk_size) then bufs ++ [buf]
  else ScanFile_loop file (pos + read_chunk_size) (bufs ++ [buf]).
Proof.
  intros H. rewrite ScanFile_loop_equation_1.
  destruct (Z_lt_dec pos (Py.len file)); [reflexivity|lia].
Qed.

(** What the buffers of a scan are: consecutive pieces of the file, all
    of [read_chunk_size] bytes but the last. *)
Lemma ScanFile_loop_spec (file : list byte) (n : nat) :
  forall (pos : Z) (bufs : list (list byte)),
    0 <= pos -> (Z.to_nat (Py.len file - pos) <= n)%nat ->
    exists new,
      ScanFile_loop file pos bufs = bufs ++ new /\
      concat new = skipn (Z.to_nat pos) file /\
      forall (j : nat) (buf : list byte),
        nth_error new j = Some buf ->
        buf = Py.slice file (pos + read_chunk_size * Z.of_nat j)
                (pos + read_chunk_size * Z.of_nat j + read_chunk_size) /\
        1 <= Py.len buf <= read_chunk_size /\
        ((S j < length new)%nat -> Py.len buf = read_chunk_size).
Proof.
  induction n as [|n IH]; intros pos bufs Hpos Hn.
  - exists []. rewrite ScanFile_loop_done by lia.
    split; [symmetry; apply app_nil_r|]. split.
    + symmetry. apply skipn_all2. unfold Py.len in *. lia.
    + intros j buf H. destruct j; discriminate.
  - destruct (Z_lt_dec pos (Py.len file)) as [Hlt|Hge].
    2:{ exists []. rewrite ScanFile_loop_done by lia.
        split; [symmetry; apply app_nil_r|]. split.
        - symmetry. apply skipn_all2. unfold Py.len in *. lia.
        - intros j buf H. destruct j; discriminate. }
    rewrite ScanFile_loop_step by assumption. cbv zeta.
    unfold seek_and_read.
    set (buf := Py.slice file pos (pos + read_chunk_size)).
    assert (HC : read_chunk_size = 131072) by reflexivity.
    assert (Hbuf : buf = firstn (Z.to_nat
                            (Z.min (pos + read_chunk_size) (Py.len file)
                             - pos))
                           (skipn (Z.to_nat pos) file)).
    { unfold buf. rewrite slice_nonneg by lia.
      rewrite (Z.min_l pos) by lia. reflexivity. }
    assert (Hlen : Py.len buf =
                   Z.min (pos + read_chunk_size) (Py.len file) - pos).
    { unfold buf. rewrite slice_len by lia. lia. }
    destruct (Z.eqb_spec (Py.len buf) read_chunk_size) as [Hfull|Hshort];
      cbn [negb].
    + destruct (IH (pos + read_chunk_size) (bufs ++ [buf])
                  ltac:(lia) ltac:(lia)) as (new & Hrun & Hcat & Hnth).
      exists (buf :: new). split; [|split].
      * rewrite Hrun, <- app_assoc. reflexivity.
      * cbn [concat]. rewrite Hcat, Hbuf.
        replace (Z.to_nat (pos + read_chunk_size))
          with (Z.to_nat read_chunk_size + Z.to_nat pos)%nat by lia.
        rewrite <- skipn_skipn.
        replace (Z.to_nat (Z.min (pos + read_chunk_size) (Py.len file)
                           - pos))
          with (Z.to_nat read_chunk_size) by lia.
        apply firstn_skipn.
      * intros [|j] b Hb; cbn [nth_error length] in *.
        -- injection Hb as <-. rewrite Z.mul_0_r, Z.add_0_r.
           split; [reflexivity|]. split; [lia|]. intros _. exact Hfull.
        -- destruct (Hnth j b Hb) as (E & Hl & Hf).
           split; [|split; [exact Hl|intros H; apply Hf; lia]].
           rewrite E. f_equal; lia.
    + exists [buf]. split; [reflexivity|]. split.
      * cbn [concat]. rewrite app_nil_r, Hbuf.
        apply firstn_all2. rewrite length_skipn. unfold Py.len in *. lia.
      * intros [|j] b Hb; cbn [nth_error length] in *.
        -- injection Hb as <-. rewrite Z.mul_0_r, Z.add_0_r.
           split; [reflexivity|]. split; [lia|]. intros H. lia.
        -- destruct j; discriminate.
Qed.

Lemma ScanFile_buffers_spec (file : list byte) :
  concat (ScanFile_buffers file) = file /\
  forall (j : nat) (buf : list byte),
    nth_error (ScanFile_buffers file) j = Some buf ->
    buf = Py.slice file (read_chunk_size * Z.of_nat j)
            (read_chunk_size * Z.of_nat j + read_chunk_size) /\
    1 <= Py.len buf <= read_chunk_size /\
    ((S j < length (ScanFile_buffers file))%nat ->
     Py.len buf = read_chunk_size).
Proof.
  destruct (ScanFile_loop_spec file (length file) 0 [] ltac:(lia)
              ltac:(unfold Py.len; lia)) as (new & Hrun & Hcat & Hnth).
  unfold ScanFile_buffers. rewrite Hrun. cbn [app].
  split; [exact Hcat|]. exact Hnth.
Qed.

(** X14: ScanFile reads the file once.  The buffers it scans are
    consecutive pieces of the file: put together they are the file; the
    buffer number [j] (from 0) starts at byte 131072 * j; every buffer
    but the last has 131072 bytes, and the last has between 1 and
    131072. *)
Theorem ScanFile_reads_the_file_in_pieces (file : list byte) :
  concat (ScanFile_buffers file) = file /\
  forall (j : nat) (buf : list byte),
    nth_error (ScanFile_buffers file) j = Some buf ->
    buf = Py.slice file (131072 * Z.of_nat j)
            (131072 * Z.of_nat j + 131072) /\
    1 <= Py.len buf <= 131072 /\
    ((S j < length (ScanFile_buffers file))%nat -> Py.len buf = 131072).
Proof.
  exact (ScanFile_buffers_spec file).
Qed.

Lemma slice_of_slice {A : Type} (l : list A) (a b i n : Z) :
  0 <= a -> 0 <= i -> 0 <= n ->
  a + i <= b -> a + i <= Py.len l ->
  Py.slice (Py.slice l a b) i (i + n) =
  Py.slice l (a + i) (Z.min (a + i + n) b).
Proof.
  intros Ha Hi Hn Hb Hl.
  set (M := Z.min b (Py.len l) - a).
  assert (HM : i <= M) by (unfold M; lia).
  assert (Hinner : Py.slice l a b =
                   firstn (Z.to_nat M) (skipn (Z.to_nat a) l)).
  { rewrite slice_nonneg by lia. rewrite (Z.min_l a) by lia. reflexivity. }
  assert (Hlen : Py.len (Py.slice l a b) = M).
  { rewrite Hinner. unfold Py.len in *.
    rewrite length_firstn, length_skipn. lia. }
  rewrite (slice_nonneg (Py.slice l a b)) by lia.
  rewrite Hlen, (Z.min_l i M) by lia. rewrite Hinner.
  rewrite skipn_firstn_comm, firstn_firstn, skipn_skipn.
  rewrite (slice_nonneg l (a + i)) by lia.
  rewrite (Z.min_l (a + i)) by lia.
  assert (E : Z.min (Z.min (a + i + n) b) (Py.len l) - (a + i) =
              Z.min (i + n) M - i) by (unfold M; lia).
  rewrite E.
  assert (E1 : Nat.min (Z.to_nat (Z.min (i + n) M - i))
                       (Z.to_nat M - Z.to_nat i) =
               Z.to_nat (Z.min (i + n) M - i)) by lia.
  rewrite E1. f_equal. f_equal. lia.
Qed.

(** X15: windows end where a buffer ends.  The window number [k] of the
    buffer number [j] of a file starts at byte 131072 * j + 16 * k of
    the file and holds the bytes from there up to 4096 bytes on, the
    end of the buffer or the end of the file, whichever comes first: a
    chunk that lies across two buffers is never decoded whole. *)
Theorem windows_end_with_their_buffer (file buf : list byte) (j k : nat) :
  nth_error (ScanFile_buffers file) j = Some buf ->
  16 * Z.of_nat k < Py.len buf ->
  Py.slice buf (16 * Z.of_nat k) (16 * Z.of_nat k + PAGE_SIZE) =
  Py.slice file (131072 * Z.of_nat j + 16 * Z.of_nat k)
    (Z.min (131072 * Z.of_nat j + 16 * Z.of_nat k + PAGE_SIZE)
           (131072 * Z.of_nat j + 131072)).
Proof.
  intros Hj Hk.
  destruct (ScanFile_buffers_spec file) as (_ & Hnth).
  destruct (Hnth j buf Hj) as (E & Hlen & _).
  change read_chunk_size with 131072 in E, Hlen.
  assert (Hin : 131072 * Z.of_nat j + 16 * Z.of_nat k <= Py.len file).
  { rewrite E in Hk.
    rewrite slice_len in Hk by lia. lia. }
  rewrite E at 1. unfold PAGE_SIZE.
  apply slice_of_slice; lia.
Qed.

Lemma windows_end_with_their_buffer_witness :
  Py.slice three_matches (16 * Z.of_nat 0) (16 * Z.of_nat 0 + PAGE_SIZE) =
  Py.slice three_matches (131072 * Z.of_nat 0 + 16 * Z.of_nat 0)
    (Z.min (131072 * Z.of_nat 0 + 16 * Z.of_nat 0 + PAGE_SIZE)
           (131072 * Z.of_nat 0 + 131072)).
Proof.
  apply (windows_end_with_their_buffer three_matches three_matches 0 0).
  - vm_compute. reflexivity.
  - vm_compute. reflexivity.
Defined.










(** ** The end of the input and the flags *)

(** X17: the end of the input.  When a pass of a run starts with all
    of the buffer read, the function returns the output as it is then,
    whichever way the pass goes: no flag word can be read (break), the
    next flag asks for a literal that is not there (break), or it asks
    for a match (return). *)
Theorem end_of_input_returns_the_output (Buffer : list byte) (s : state) :
  reachable Buffer s ->
  InputPosition s = Py.len Buffer ->
  LZ77DecompressBuffer Buffer =
  Some (inr (BytesIO.value (OutputObject s))).
Proof.
  intros Hr Hend. pose proof (reachable_at_head Buffer s Hr) as Hs.
  pose proof Hs as [[Hin Hout _] Hcount _].
  pose proof (len_nonneg (BytesIO.value (OutputObject s))) as Hv.
  destruct (refill_cases Buffer s ltac:(lia))
    as [[Hne E]|[(_ & _ & E)|(_ & Hle & _)]]; [| |lia].
  - pose proof (take_flag_cases s ltac:(lia)) as T.
    set (s2 := set_BufferedFlagCount (BufferedFlagCount s - 1) s) in *.
    destruct (Z.land (BufferedFlags s)
                (Z.shiftl 1 (BufferedFlagCount s - 1)) =? 0) eqn:Hbit.
    + destruct (literal_cases Buffer s2 ltac:(cbn; lia) ltac:(cbn; lia))
        as [[_ L]|(b & _ & Hlt & _)]; [|cbn in Hlt; lia].
      apply (break_result Buffer s s2 Hr).
      unfold iteration. rewrite E. cbn [bind]. rewrite T. cbn [bind].
      exact L.
    + apply (run_result Buffer s
               (Returned (BytesIO.value (OutputObject s))) Hr).
      cbn [while_True]. unfold iteration. rewrite E. cbn [bind].
      rewrite T. cbn [bind]. unfold process_match.
      change (InputPosition s2) with (InputPosition s).
      rewrite Hend, Z.eqb_refl. reflexivity.
  - apply (break_result Buffer s s Hr).
    unfold iteration. rewrite E. reflexivity.
Qed.

Lemma end_of_input_returns_the_output_witness :
  LZ77DecompressBuffer [x00; x00; x00; x40; x41] =
  Some (inr (BytesIO.value
               (OutputObject
                  (mkState 1073741824 31 5 1 0 (BytesIO.mk [x41] 1))))).
Proof.
  apply (end_of_input_returns_the_output [x00; x00; x00; x40; x41]).
  - apply (reachable_next [x00; x00; x00; x40; x41] initial_state);
      [apply reachable_initial|vm_compute; reflexivity].
  - vm_compute. reflexivity.
Defined.


Section Flags.

Variable Buffer : list byte.



End Flags.



(** ** The scan and the decoder together *)

(** X19: what a worker can produce for a window.  Every window handed
    to the pool has between 1 and 4096 bytes, and the decoder returns
    for it an output of at most 53690368 bytes (13108 for each byte of
    the window): the 2 GiB ceiling is never reached in a scan. *)
Theorem window_output_is_bounded (Buffer compressed_data : list byte) :
  In compressed_data (compressed_data_to_process Buffer) ->
  1 <= Py.len compressed_data <= PAGE_SIZE /\
  exists decompressed_data,
    LZ77DecompressBuffer compressed_data = Some (inr decompressed_data) /\
    Py.len decompressed_data <= 53690368.
Proof.
  intros H. rewrite scan_is_filter in H. apply filter_In in H.
  destruct H as [H _]. apply candidate_window_iff in H.
  destruct H as (k & Hk & ->).
  pose proof (window_at_len Buffer k Hk) as L. unfold PAGE_SIZE.
  split; [lia|].
  destruct (result_bounds (window_at Buffer k)) as (out & Hout & _ & Hb).
  exists out. split; [exact Hout|]. lia.
Qed.

Lemma window_output_is_bounded_witness :
  1 <= Py.len three_matches <= PAGE_SIZE /\
  exists decompressed_data,
    LZ77DecompressBuffer three_matches = Some (inr decompressed_data) /\
    Py.len decompressed_data <= 53690368.
Proof.
  apply (window_output_is_bounded three_matches three_matches).
  vm_compute. left. reflexivity.
Defined.

Lemma buffers_hold_the_file (bufs : list (list byte)) :
  (forall (j : nat) (buf : list byte),
     nth_error bufs j = Some buf -> Py.len buf <= read_chunk_size) ->
  Py.len (concat bufs) <= read_chunk_size * Z.of_nat (length bufs).
Proof.
  induction bufs as [|buf bufs IH]; intros H; [cbn; lia|].
  cbn [concat length]. rewrite len_app.
  pose proof (H 0%nat buf eq_refl).
  specialize (IH (fun j b Hb => H (S j) b Hb)). lia.
Qed.

(** X20: every aligned offset is tried.  Every offset of the file that
    is a multiple of 16 is the start of a candidate window: the offset
    lies in the buffer number [j], at the place 16 * [k] in it, and the
    window holds the bytes of the file from the offset up to 4096 bytes
    on, or up to the end of that buffer or of the file. *)
Theorem every_aligned_offset_is_scanned (file : list byte) (a : Z) :
  0 <= a < Py.len file -> a mod 16 = 0 ->
  exists (j k : nat) (buf : list byte),
    nth_error (ScanFile_buffers file) j = Some buf /\
    a = 131072 * Z.of_nat j + 16 * Z.of_nat k /\
    In (Py.slice file a
          (Z.min (a + PAGE_SIZE) (131072 * Z.of_nat j + 131072)))
       (candidate_windows buf).
Proof.
  intros Ha Hmod.
  destruct (ScanFile_buffers_spec file) as (Hcat & Hnth).
  change read_chunk_size with 131072 in Hnth.
  pose proof (buffers_hold_the_file (ScanFile_buffers file)
                (fun j b Hb => proj2 (proj1 (proj2 (Hnth j b Hb)))))
    as Hall.
  rewrite Hcat in Hall. change read_chunk_size with 131072 in Hall.
  pose proof (Z.div_mod a 131072 ltac:(lia)) as Hq.
  pose proof (Z.mod_pos_bound a 131072 ltac:(lia)) as Hr.
  pose proof (Z.div_mod a 16 ltac:(lia)) as Ha16.
  rewrite Hmod, Z.add_0_r in Ha16.
  set (q := a / 131072) in *. set (r := a mod 131072) in *.
  set (a' := a / 16) in *.
  assert (Hq0 : 0 <= q) by (apply Z.div_pos; lia).
  set (j := Z.to_nat q).
  assert (Hj : (j < length (ScanFile_buffers file))%nat) by lia.
  destruct (nth_error (ScanFile_buffers file) j) as [buf|] eqn:Hbuf.
  2:{ apply nth_error_None in Hbuf. lia. }
  destruct (Hnth j buf Hbuf) as (E & Hlen & _).
  set (k := Z.to_nat (a' - 8192 * q)).
  assert (Hk : a = 131072 * Z.of_nat j + 16 * Z.of_nat k) by lia.
  assert (Hkb : 16 * Z.of_nat k < Py.len buf).
  { rewrite E, slice_len by lia. lia. }
  exists j, k, buf. split; [exact Hbuf|]. split; [exact Hk|].
  apply candidate_window_iff. exists k. split; [exact Hkb|].
  rewrite <- (slice_is_window buf k Hkb). rewrite E at 1.
  rewrite slice_of_slice by lia. unfold PAGE_SIZE. f_equal; lia.
Qed.

Lemma every_aligned_offset_is_scanned_witness :
  exists (j k : nat) (buf : list byte),
    nth_error (ScanFile_buffers (repeat x41 40)) j = Some buf /\
    32 = 131072 * Z.of_nat j + 16 * Z.of_nat k /\
    In (Py.slice (repeat x41 40) 32
          (Z.min (32 + PAGE_SIZE) (131072 * Z.of_nat j + 131072)))
       (candidate_windows buf).
Proof.
  apply (every_aligned_offset_is_scanned (repeat x41 40) 32).
  - vm_compute. split; [discriminate|reflexivity].
  - vm_compute. reflexivity.
Defined.
